(** * Reactors, Machine Learning 2: the PCA notebook

    A shallow embedding of the notebook
    [Machine_Learning_2/Reference Material/190053-Reactors-DS-Tr2-Sec1-2-PCA.ipynb].

    The notebook is a straight line of calls into pandas, SciPy,
    scikit-learn and matplotlib.  It is embedded as a program in a small
    monad that records every library call (with its arguments and whether it
    raised) and stops at the first exception, which is what running the cells
    from top to bottom does.

    - The table operations of pandas that the notebook calls ([dropna],
      [iloc], [set_index], [drop], [+], column assignment, [join], [rename],
      [sort_values], [value_counts]) are written out as functions on a
      column-major table.
    - The numerical routines (the CSV parser, the Box-Cox fit,
      [StandardScaler], [PCA]) and everything that only renders output
      (printing, plotting) are fields of a [Library], over which the whole
      development is parametric.
    - The exercise cells are filled in with the solution that the notebook
      itself states ([df = df.dropna()], [nutr_df.set_index('NDB_No',
      inplace=True)], the standard-deviation print); exercise cells for which
      the notebook states no solution stay empty, as in the source.
    - A cell holds a number of the type of its column, as pandas keeps it:
      a 64-bit integer, which wraps around, or a float64, which is a
      rational, an infinity or [NaN]; an addition is carried out in that
      type, a float64 sum being rounded to the nearest float64. *)

From Stdlib Require Import String Ascii ZArith QArith Bool Arith Lia Lqa.
From Stdlib Require Import DecimalString List Permutation Sorted.
Import ListNotations.

Local Open Scope string_scope.
Local Open Scope list_scope.
Local Open Scope nat_scope.

(** ** Values, labels, tables *)

(** A cell of a table, by the type of its column: the 64-bit integer of an
    [int64] column; the finite number, the infinity or the missing value of a
    [float64] column; the text of an [object] column. *)
Inductive value : Type :=
| Int (z : Z)
| Num (q : Q)
| Inf (negative : bool)
| NaN
| Str (s : string).

(** A column label: the header of a CSV column is a text, the columns of a
    table built from an array are numbered. *)
Inductive label : Type :=
| LStr (s : string)
| LInt (z : Z).

(** A pandas [DataFrame], column-major: the row labels and, for every column
    in order, its label and its cells. *)
Record DataFrame : Type := mkFrame {
  index : list value;
  columns : list (label * list value)
}.

(** A two-dimensional numpy array, column-major, with its number of rows. *)
Record ndarray : Type := mkArray {
  shape0 : nat;
  acols : list (list value)
}.

(** What the notebook reads of a fitted [PCA] object. *)
Record PCA : Type := mkPCA {
  explained_variance_ratio_ : list value;
  components_ : list (list value)
}.

(** A pandas [Series]: labelled values. *)
Definition Series (K : Type) : Type := list (K * value).

(** A Python exception: its class and its message. *)
Inductive exn : Type :=
| Exn (cls msg : string).

(** The outcome of a library call. *)
Inductive result (A : Type) : Type :=
| Ok (a : A)
| Error (e : exn).
Arguments Ok {A} a.
Arguments Error {A} e.

Definition labels (d : DataFrame) : list label := map fst (columns d).
Definition nrows (d : DataFrame) : nat := length (index d).

(** All cells of a table. *)
Definition cells (d : DataFrame) : list value := flat_map snd (columns d).

(** ** Comparisons *)

Definition label_eqb (a b : label) : bool :=
  match a, b with
  | LStr s, LStr t => String.eqb s t
  | LInt x, LInt y => Z.eqb x y
  | _, _ => false
  end.

(** Equality of row labels as a join sees it: numbers by value, missing
    labels match each other. *)
Definition value_eqb (a b : value) : bool :=
  match a, b with
  | Int x, Int y => (x =? y)%Z
  | Int x, Num q | Num q, Int x => Qeq_bool (inject_Z x) q
  | Num p, Num q => Qeq_bool p q
  | Inf s, Inf t => Bool.eqb s t
  | NaN, NaN => true
  | Str s, Str t => String.eqb s t
  | _, _ => false
  end.

Definition isnan (v : value) : bool :=
  match v with NaN => true | _ => false end.

(** The order of two numbers, minus infinity first and infinity last. *)
Definition number_leb (a b : value) : bool :=
  match a, b with
  | Int x, Int y => (x <=? y)%Z
  | Int x, Num q => Qle_bool (inject_Z x) q
  | Num p, Int y => Qle_bool p (inject_Z y)
  | Num p, Num q => Qle_bool p q
  | Inf true, _ => true
  | _, Inf false => true
  | _, _ => false
  end.

(** The order [sort_values] puts a column in: missing values last. *)
Definition value_leb (a b : value) : bool :=
  match a, b with
  | _, NaN => true
  | NaN, _ => false
  | Str s, Str t => String.leb s t
  | Str _, _ => false
  | _, Str _ => true
  | _, _ => number_leb a b
  end.

(** ** pandas: selecting rows and columns *)

(** The cells of a column at the given row positions. *)
Definition take (pos : list nat) (c : list value) : list value :=
  map (fun i => nth i c NaN) pos.

Definition take_rows (pos : list nat) (d : DataFrame) : DataFrame :=
  mkFrame (take pos (index d))
          (map (fun lc => (fst lc, take pos (snd lc))) (columns d)).

Definition row_has_nan (d : DataFrame) (i : nat) : bool :=
  existsb (fun lc => isnan (nth i (snd lc) NaN)) (columns d).

(** [df.dropna()]: the rows without a missing cell, in order, with their
    labels. *)
Definition dropna (d : DataFrame) : DataFrame :=
  take_rows (filter (fun i => negb (row_has_nan d i)) (seq 0 (nrows d))) d.

Fixpoint pick {A : Type} (l : list A) (pos : list nat) : option (list A) :=
  match pos with
  | [] => Some []
  | i :: rest =>
      match nth_error l i, pick l rest with
      | Some a, Some t => Some (a :: t)
      | _, _ => None
      end
  end.

(** [df.iloc[:, positions]]: the columns at the given positions; a position
    past the last column raises. *)
Definition iloc_cols (d : DataFrame) (pos : list nat) : result DataFrame :=
  match pick (columns d) pos with
  | Some cs => Ok (mkFrame (index d) cs)
  | None => Error (Exn "IndexError" "positional indexers are out-of-bounds")
  end.

(** [df.iloc[:, :-k]]: all but the last [k] columns (a slice never raises). *)
Definition iloc_drop_last (d : DataFrame) (k : nat) : DataFrame :=
  mkFrame (index d) (firstn (length (columns d) - k) (columns d)).

(** [df[name]] and [df.loc[:, name]]: the cells of the column with that
    label. *)
Definition loc (d : DataFrame) (name : label) : option (list value) :=
  option_map snd (find (fun lc => label_eqb (fst lc) name) (columns d)).

Definition format_label (l : label) : string :=
  match l with
  | LStr s => s
  | LInt z => NilZero.string_of_int (Z.to_int z)
  end.

(** pandas' KeyError; the message is cut down to the label. *)
Definition KeyError (name : label) : exn := Exn "KeyError" (format_label name).

Definition getitem (d : DataFrame) (name : label) : result (list value) :=
  match loc d name with
  | Some c => Ok c
  | None => Error (KeyError name)
  end.

Definition remove_cols (names : list label) (cs : list (label * list value))
  : list (label * list value) :=
  filter (fun lc => negb (existsb (label_eqb (fst lc)) names)) cs.

(** [df.set_index(name)]: the column becomes the row labels and leaves the
    columns. *)
Definition set_index (d : DataFrame) (name : label) : result DataFrame :=
  match loc d name with
  | Some c => Ok (mkFrame c (remove_cols [name] (columns d)))
  | None => Error (KeyError name)
  end.

(** [df.drop(names, axis=1)]: a label that is not a column raises. *)
Definition drop (d : DataFrame) (names : list label) : result DataFrame :=
  match find (fun n => negb (existsb (label_eqb n) (labels d))) names with
  | Some n => Error (KeyError n)
  | None => Ok (mkFrame (index d) (remove_cols names (columns d)))
  end.

(** [df.rename(columns=mapping)]: labels outside the mapping stay. *)
Definition rename_label (mapping : list (label * label)) (l : label) : label :=
  match find (fun kv => label_eqb (fst kv) l) mapping with
  | Some kv => snd kv
  | None => l
  end.

Definition rename (d : DataFrame) (mapping : list (label * label)) : DataFrame :=
  mkFrame (index d)
          (map (fun lc => (rename_label mapping (fst lc), snd lc)) (columns d)).

(** ** numpy: the arithmetic of the column types *)

(** The [int64] that an integer wraps around to. *)
Definition wrap64 (z : Z) : Z := ((z + 2 ^ 63) mod 2 ^ 64 - 2 ^ 63)%Z.

(** [n / d] to the nearest integer, a tie to the even one ([0 <= n],
    [0 < d]). *)
Definition round_half_even (n d : Z) : Z :=
  match (2 * (n mod d) ?= d)%Z with
  | Lt => (n / d)%Z
  | Gt => (n / d + 1)%Z
  | Eq => if Z.even (n / d) then (n / d)%Z else (n / d + 1)%Z
  end.

(** The binary exponent of [a / b]: the [e] with [2 ^ e <= a / b < 2 ^ (e + 1)]
    ([0 < a], [0 < b]). *)
Definition ilog2 (a b : Z) : Z :=
  let e := (Z.log2 a - Z.log2 b)%Z in
  if (a * 2 ^ Z.max 0 (- e) <? b * 2 ^ Z.max 0 e)%Z then (e - 1)%Z else e.

(** The float64 nearest to [a / b] ([0 < a], [0 < b]): 53 significant bits,
    the last of them worth [2 ^ u] with [u] no less than -1074, a tie to the
    even neighbour, and infinity from [2 ^ 1024 - 2 ^ 970] on. *)
Definition round64_pos (a b : Z) : value :=
  let u := Z.max (ilog2 a b - 52) (-1074) in
  let n := round_half_even (a * 2 ^ Z.max 0 (- u)) (b * 2 ^ Z.max 0 u) in
  if ((971 <? u) || ((u =? 971) && (2 ^ 53 <=? n)))%Z then Inf false
  else Num (Qred (n * 2 ^ Z.max 0 u # Z.to_pos (2 ^ Z.max 0 (- u)))).

Definition negate (v : value) : value :=
  match v with
  | Num q => Num (- q)
  | Inf s => Inf (negb s)
  | _ => v
  end.

(** The float64 nearest to a rational. *)
Definition round64 (q : Q) : value :=
  match Qnum q with
  | Z0 => Num 0
  | Zpos a => round64_pos (Zpos a) (Zpos (Qden q))
  | Zneg a => negate (round64_pos (Zpos a) (Zpos (Qden q)))
  end.

(** ** pandas: arithmetic and column assignment *)

(** [v + k] for a cell [v] and a Python integer [k] that both column types
    hold exactly (the notebook adds 1).  An [int64] cell stays an [int64]
    and wraps around; a float64 cell gets the float64 nearest to the sum; an
    infinity and a missing value stay; a text cannot be added to. *)
Definition add_value (k : Z) (v : value) : option value :=
  match v with
  | Int z => Some (Int (wrap64 (z + k)))
  | Num q => Some (round64 (q + inject_Z k))
  | Inf s => Some (Inf s)
  | NaN => Some NaN
  | Str _ => None
  end.

Fixpoint map_opt {A B : Type} (f : A -> option B) (l : list A) : option (list B) :=
  match l with
  | [] => Some []
  | a :: rest =>
      match f a, map_opt f rest with
      | Some b, Some t => Some (b :: t)
      | _, _ => None
      end
  end.

Definition quote : string := String (ascii_of_nat 34) EmptyString.

(** [df + k]: cell by cell; a text cell raises the TypeError of Python's
    [str + int] (with its message as of Python 3.7). *)
Definition add_scalar (d : DataFrame) (k : Z) : result DataFrame :=
  match map_opt (fun lc => option_map (pair (fst lc)) (map_opt (add_value k) (snd lc)))
                (columns d) with
  | Some cs => Ok (mkFrame (index d) cs)
  | None =>
      Error (Exn "TypeError"
                 ("can only concatenate str (not " ++ quote ++ "int" ++ quote ++ ") to str"))
  end.

Fixpoint assign (name : label) (x : list value) (cs : list (label * list value))
  : list (label * list value) :=
  match cs with
  | [] => [(name, x)]
  | lc :: rest =>
      if label_eqb (fst lc) name then (fst lc, x) :: rest
      else lc :: assign name x rest
  end.

(** [df[name] = x] for an array [x]: replaces the column of that label or
    appends a new one; a length other than the number of rows raises. *)
Definition setitem (d : DataFrame) (name : label) (x : list value) : result DataFrame :=
  if length x =? nrows d then Ok (mkFrame (index d) (assign name x (columns d)))
  else Error (Exn "ValueError" "Length of values does not match length of index").

(** [pd.DataFrame(a, index=idx)]: the columns are numbered from 0. *)
Definition frame_of_array (a : ndarray) (idx : list value) : result DataFrame :=
  if shape0 a =? length idx then
    Ok (mkFrame idx (combine (map (fun j => LInt (Z.of_nat j)) (seq 0 (length (acols a))))
                             (acols a)))
  else Error (Exn "ValueError" "Shape of passed values does not match index").

(** [a[:, :k]] *)
Definition first_columns (a : ndarray) (k : nat) : ndarray :=
  mkArray (shape0 a) (firstn k (acols a)).

(** [pd.Series(x, index=idx)] *)
Definition series_of {K : Type} (x : list value) (idx : list K) : result (Series K) :=
  if length x =? length idx then Ok (combine idx x)
  else Error (Exn "ValueError" "Length of values does not match length of index").

(** [v[i]] on a list of rows. *)
Definition row_at (v : list (list value)) (i : nat) : result (list value) :=
  match nth_error v i with
  | Some r => Ok r
  | None => Error (Exn "IndexError" "index out of bounds")
  end.

(** ** pandas: join, sort, count *)

(** The positions of the right rows whose label equals [l]. *)
Definition matches (ri : list value) (l : value) : list nat :=
  filter (fun j => value_eqb l (nth j ri NaN)) (seq 0 (length ri)).

(** A left join on the row labels: every left row, in order, once for each
    right row with the same label, and once with no partner when there is
    none. *)
Definition join_plan (li ri : list value) : list (nat * option nat) :=
  flat_map (fun i =>
              match matches ri (nth i li NaN) with
              | [] => [(i, None)]
              | js => map (fun j => (i, Some j)) js
              end)
           (seq 0 (length li)).

Definition take_opt (pos : list (option nat)) (c : list value) : list value :=
  map (fun o => match o with Some j => nth j c NaN | None => NaN end) pos.

(** Some left row has no partner. *)
Definition unpaired (plan : list (nat * option nat)) : bool :=
  existsb (fun p => match snd p with None => true | Some _ => false end) plan.

(** What pandas keeps of a cell in a column that got a missing value: an
    [int64] column becomes a float64 column, each integer the float64
    nearest to it. *)
Definition to_float (v : value) : value :=
  match v with Int z => round64 (inject_Z z) | _ => v end.

(** A cell of a right column in the joined table. *)
Definition joined (plan : list (nat * option nat)) (v : value) : value :=
  if unpaired plan then to_float v else v.

(** [left.join(right)]: a label that is a column of both raises. *)
Definition join (l r : DataFrame) : result DataFrame :=
  if existsb (fun n => existsb (label_eqb n) (labels r)) (labels l) then
    Error (Exn "ValueError" "columns overlap but no suffix specified")
  else
    let plan := join_plan (index l) (index r) in
    Ok (mkFrame (take (map fst plan) (index l))
                (map (fun lc => (fst lc, take (map fst plan) (snd lc))) (columns l)
                 ++ map (fun lc => (fst lc, map (joined plan) (take_opt (map snd plan) (snd lc))))
                        (columns r))).

Fixpoint insert_by (leb : nat -> nat -> bool) (i : nat) (l : list nat) : list nat :=
  match l with
  | [] => [i]
  | j :: rest => if leb i j then i :: l else j :: insert_by leb i rest
  end.

(** The row positions in increasing order of [key].  pandas leaves the order
    of rows with equal keys open; here they keep their order. *)
Definition argsort (key : list value) : list nat :=
  fold_right (insert_by (fun i j => value_leb (nth i key NaN) (nth j key NaN)))
             [] (seq 0 (length key)).

(** [df.sort_values(by=name)] *)
Definition sort_values (d : DataFrame) (by_ : label) : result DataFrame :=
  match loc d by_ with
  | Some key => Ok (take_rows (argsort key) d)
  | None => Error (KeyError by_)
  end.

Fixpoint bump (v : value) (acc : list (value * nat)) : list (value * nat) :=
  match acc with
  | [] => [(v, 1)]
  | wn :: rest =>
      if value_eqb v (fst wn) then (fst wn, S (snd wn)) :: rest
      else wn :: bump v rest
  end.

Definition tally (l : list value) : list (value * nat) :=
  fold_left (fun acc v => if isnan v then acc else bump v acc) l [].

Fixpoint insert_count (e : value * nat) (l : list (value * nat)) : list (value * nat) :=
  match l with
  | [] => [e]
  | f :: rest => if snd f <? snd e then e :: l else f :: insert_count e rest
  end.

(** [s.value_counts()]: how often each value occurs, missing values left
    out, the most frequent first (the order of values that occur equally
    often is open in pandas). *)
Definition value_counts (l : list value) : list (value * nat) :=
  fold_left (fun acc e => insert_count e acc) (tally l) [].

(** ** Library calls *)

(** Every call the notebook makes into a library, with its arguments. *)
Inductive call : Type :=
| read_csv_call (path encoding : string)
| info_call (d : DataFrame)
| dropna_call (d : DataFrame)
| shape_call (d : DataFrame)
| iloc_call (d : DataFrame) (positions : list nat)
| iloc_drop_last_call (d : DataFrame) (k : nat)
| set_index_call (d : DataFrame) (name : label)
| head_call (d : DataFrame)
| drop_call (d : DataFrame) (names : list label)
| hist_call (d : DataFrame)
| add_call (d : DataFrame) (k : Z)
| loc_call (d : DataFrame) (name : label)
| boxcox_call (x : list value)
| setitem_call (d : DataFrame) (name : label) (x : list value)
| StandardScaler_call (d : DataFrame)
| print_mean_call (a : ndarray)
| print_std_call (a : ndarray)
| PCA_call (a : ndarray)
| plot_call (v : list value)
| print_sum_call (v : list value)
| print_cumsum_call (v : list value)
| plot_cumsum_call (v : list value)
| title_call (s : string)
| DataFrame_call (a : ndarray) (idx : list value)
| join_call (l r : DataFrame)
| rename_call (d : DataFrame) (mapping : list (label * label))
| corr_call (d : DataFrame)
| components_call (f : PCA) (i : nat)
| Series_call (x : list value) (idx : list label)
| sorted_series_call (s : Series label)
| sort_values_call (d : DataFrame) (by_ : label)
| getitem_call (d : DataFrame) (name : label)
| value_counts_call (counts : list (value * nat)).

(** One entry of the run's log: the call and the exception it raised, if
    any. *)
Inductive event : Type :=
| Ev (c : call) (raised : option exn).

Definition event_call (ev : event) : call := match ev with Ev c _ => c end.

(** The routines whose code is in the libraries: the CSV parser of pandas
    (by encoding and file contents), the maximum-likelihood fit of SciPy's
    [boxcox] (the transformed data and the fitted lambda), scikit-learn's
    [StandardScaler().fit_transform] and [PCA().fit_transform], and whatever
    a call that only prints or plots may raise. *)
Class Library : Type := {
  parse_csv : string -> list Byte.byte -> result DataFrame;
  boxcox_mle : list value -> result (list value * value);
  StandardScaler_fit_transform : DataFrame -> result ndarray;
  PCA_fit_transform : ndarray -> result (PCA * ndarray);
  display : call -> result unit
}.

(** The files the kernel can see: the contents at a path, if there is a
    file. *)
Definition FileSystem : Type := string -> option (list Byte.byte).

(** ** The monad of a run *)

(** A computation returns the log of its calls and either a value or the
    exception that stopped it. *)
Definition M (A : Type) : Type := (list event * result A)%type.

Definition ret {A : Type} (a : A) : M A := ([], Ok a).

Definition bind {A B : Type} (m : M A) (f : A -> M B) : M B :=
  match snd m with
  | Ok a => let k := f a in (fst m ++ fst k, snd k)
  | Error e => (fst m, Error e)
  end.

Definition raised_by {A : Type} (r : result A) : option exn :=
  match r with Ok _ => None | Error e => Some e end.

(** A library call: logged, and its exception (if any) is the run's. *)
Definition perform {A : Type} (c : call) (r : result A) : M A :=
  ([Ev c (raised_by r)], r).

Declare Scope run_scope.
Delimit Scope run_scope with run.
Notation "x <- m ;; k" := (bind m (fun x => k))
  (at level 100, m at next level, right associativity) : run_scope.
Notation "m ;; k" := (bind m (fun _ => k))
  (at level 100, right associativity) : run_scope.
Local Open Scope run_scope.

(** ** The notebook *)

Definition csv_path : string := "Data/USDA-nndb-combined.csv".
Definition csv_encoding : string := "latin_1".

Definition NDB_No : label := LStr "NDB_No".
Definition FoodGroup : label := LStr "FoodGroup".
Definition Shrt_Desc : label := LStr "Shrt_Desc".

(** [[0, 1, 2]+[i for i in range(50,54)]] *)
Definition desc_positions : list nat := [0; 1; 2] ++ seq 50 4.

Definition correlated : list label :=
  [LStr "Folate_DFE_(µg)"; LStr "Vit_A_RAE"; LStr "Vit_D_IU"].

Definition desc_dropped : list label :=
  [LStr "Shrt_Desc"; LStr "GmWt_Desc1"; LStr "GmWt_2"; LStr "GmWt_Desc2";
   LStr "Refuse_Pct"].

Definition component_names : list (label * label) :=
  [(LInt 0, LStr "c1"); (LInt 1, LStr "c2"); (LInt 2, LStr "c3");
   (LInt 3, LStr "c4"); (LInt 4, LStr "c5")].

(** The variables the notebook has bound when its last cell has run. *)
Record Namespace : Type := mkNamespace {
  df : DataFrame;
  desc_df : DataFrame;
  nutr_df : DataFrame;
  nutr_df_TF : ndarray;
  fit : PCA;
  pca : ndarray;
  pca_df : DataFrame;
  vects : list (list value);
  c1 : Series label;
  c2 : Series label
}.

(** numpy's [a == b] on two cells: a missing value equals nothing. *)
Definition cell_eqb (a b : value) : bool := negb (isnan a) && value_eqb a b.

(** numpy's [v <= 0] on a number. *)
Definition nonpositive (v : value) : bool :=
  match v with
  | Int z => (z <=? 0)%Z
  | Num q => Qle_bool q 0
  | Inf s => s
  | _ => false
  end.

Definition is_str (v : value) : bool :=
  match v with Str _ => true | _ => false end.

Section Notebook.

Context {L : Library}.

(** [pd.read_csv(path, encoding=...)] *)
Definition read_csv (fs : FileSystem) (path encoding : string) : result DataFrame :=
  match fs path with
  | Some contents => parse_csv encoding contents
  | None => Error (Exn "FileNotFoundError" path)
  end.

(** [scipy.stats.boxcox(x)] for a column [x], with the checks of the SciPy
    releases that test for constant data, in their order (earlier releases
    go straight to the test for positive data):
    [if x.size == 0: return x], which hands back the empty array, so that
    the subscript [[0]] the loop puts on the call raises numpy's IndexError;
    [if np.all(x == x[0]): raise ValueError("Data must not be constant.")];
    [if np.any(x <= 0): raise ValueError("Data must be positive.")], where
    comparing a text with 0 raises Python's TypeError; then the fit. *)
Definition boxcox (x : list value) : result (list value * value) :=
  match x with
  | [] => Error (Exn "IndexError" "index 0 is out of bounds for axis 0 with size 0")
  | x0 :: _ =>
      if forallb (fun v => cell_eqb v x0) x then
        Error (Exn "ValueError" "Data must not be constant.")
      else if existsb is_str x then
        Error (Exn "TypeError" "'<=' not supported between instances of 'str' and 'int'")
      else if existsb nonpositive x then
        Error (Exn "ValueError" "Data must be positive.")
      else boxcox_mle x
  end.

(** A call whose result is only shown. *)
Definition show (c : call) : M unit := perform c (display c).

(** Import modules and dataset; handle null values. *)
Definition load (fs : FileSystem) : M DataFrame :=
  df <- perform (read_csv_call csv_path csv_encoding) (read_csv fs csv_path csv_encoding) ;;
  show (info_call df) ;;
  df <- perform (dropna_call df) (Ok (dropna df)) ;;
  show (shape_call df) ;;
  ret df.

(** Split off descriptive columns.  Each table is a new object ([iloc] with a
    list copies, [drop] returns a new table), so the in-place [set_index]
    changes that table only and [df] stays as it is. *)
Definition split_descriptive (df : DataFrame) : M (DataFrame * DataFrame) :=
  desc_df <- perform (iloc_call df desc_positions) (iloc_cols df desc_positions) ;;
  desc_df <- perform (set_index_call desc_df NDB_No) (set_index desc_df NDB_No) ;;
  show (head_call desc_df) ;;
  nutr_df <- perform (iloc_drop_last_call df 5) (Ok (iloc_drop_last df 5)) ;;
  show (head_call nutr_df) ;;
  nutr_df <- perform (drop_call nutr_df [FoodGroup; Shrt_Desc])
                     (drop nutr_df [FoodGroup; Shrt_Desc]) ;;
  nutr_df <- perform (set_index_call nutr_df NDB_No) (set_index nutr_df NDB_No) ;;
  show (head_call nutr_df) ;;
  ret (desc_df, nutr_df).

(** Check for correlation among features. *)
Definition drop_correlated (nutr_df : DataFrame) : M DataFrame :=
  nutr_df <- perform (drop_call nutr_df correlated) (drop nutr_df correlated) ;;
  show (head_call nutr_df) ;;
  ret nutr_df.

(** The loop [for col in nutr_df.columns.values:
    nutr_df_TF['{}_TF'.format(col)] = boxcox(nutr_df.loc[:, col])[0]]. *)
Fixpoint boxcox_columns (nutr_df : DataFrame) (cols : list label)
         (nutr_df_TF : DataFrame) : M DataFrame :=
  match cols with
  | [] => ret nutr_df_TF
  | col :: rest =>
      x <- perform (loc_call nutr_df col) (getitem nutr_df col) ;;
      y <- perform (boxcox_call x) (boxcox x) ;;
      nutr_df_TF <- perform (setitem_call nutr_df_TF (LStr (format_label col ++ "_TF")) (fst y))
                            (setitem nutr_df_TF (LStr (format_label col ++ "_TF")) (fst y)) ;;
      boxcox_columns nutr_df rest nutr_df_TF
  end.

Definition boxcox_transform (nutr_df : DataFrame) : M DataFrame :=
  boxcox_columns nutr_df (labels nutr_df) (mkFrame (index nutr_df) []).

(** Normalize the data. *)
Definition normalize (nutr_df : DataFrame) : M (DataFrame * DataFrame) :=
  show (hist_call nutr_df) ;;
  nutr_df <- perform (add_call nutr_df 1) (add_scalar nutr_df 1) ;;
  nutr_df_TF <- boxcox_transform nutr_df ;;
  show (hist_call nutr_df_TF) ;;
  ret (nutr_df, nutr_df_TF).

(** Center the data. *)
Definition center (nutr_df_TF : DataFrame) : M ndarray :=
  nutr_df_TF <- perform (StandardScaler_call nutr_df_TF)
                        (StandardScaler_fit_transform nutr_df_TF) ;;
  show (print_mean_call nutr_df_TF) ;;
  show (print_std_call nutr_df_TF) ;;
  ret nutr_df_TF.

(** PCA in practice: the decomposition and the variance it explains. *)
Definition decompose (nutr_df_TF : ndarray) : M (PCA * ndarray) :=
  fit_pca <- perform (PCA_call nutr_df_TF) (PCA_fit_transform nutr_df_TF) ;;
  show (plot_call (explained_variance_ratio_ (fst fit_pca))) ;;
  show (print_sum_call (firstn 5 (explained_variance_ratio_ (fst fit_pca)))) ;;
  show (print_cumsum_call (explained_variance_ratio_ (fst fit_pca))) ;;
  show (plot_cumsum_call (explained_variance_ratio_ (fst fit_pca))) ;;
  show (title_call "Cumulative Explained Variance Graph") ;;
  ret fit_pca.

(** PCA in practice: the first five components as a table, with the food
    group joined back in. *)
Definition components_frame (pca : ndarray) (df desc_df : DataFrame) : M DataFrame :=
  pca_df <- perform (DataFrame_call (first_columns pca 5) (index df))
                    (frame_of_array (first_columns pca 5) (index df)) ;;
  show (head_call pca_df) ;;
  pca_df <- perform (join_call pca_df desc_df) (join pca_df desc_df) ;;
  pca_df <- perform (drop_call pca_df desc_dropped) (drop pca_df desc_dropped) ;;
  pca_df <- perform (rename_call pca_df component_names)
                    (Ok (rename pca_df component_names)) ;;
  show (head_call pca_df) ;;
  show (corr_call pca_df) ;;
  ret pca_df.

(** [pd.Series(vects[i], index=nutr_df.columns)], shown sorted. *)
Definition component_series (fit : PCA) (vects : list (list value)) (i : nat)
           (nutr_df : DataFrame) : M (Series label) :=
  v <- perform (components_call fit i) (row_at vects i) ;;
  c <- perform (Series_call v (labels nutr_df)) (series_of v (labels nutr_df)) ;;
  show (sorted_series_call c) ;;
  ret c.

(** [d.sort_values(by=...)['FoodGroup'][:500].value_counts()] *)
Definition top_food_groups (d : DataFrame) (by_ : label) : M (list (value * nat)) :=
  sorted <- perform (sort_values_call d by_) (sort_values d by_) ;;
  groups <- perform (getitem_call sorted FoodGroup) (getitem sorted FoodGroup) ;;
  show (value_counts_call (value_counts (firstn 500 groups))) ;;
  ret (value_counts (firstn 500 groups)).

(** [df['FoodGroup'].value_counts()] *)
Definition food_groups (df : DataFrame) : M (list (value * nat)) :=
  groups <- perform (getitem_call df FoodGroup) (getitem df FoodGroup) ;;
  show (value_counts_call (value_counts groups)) ;;
  ret (value_counts groups).

(** Interpreting the results. *)
Definition interpret (fit : PCA) (nutr_df pca_df df : DataFrame)
  : M (list (list value) * Series label * Series label) :=
  c1 <- component_series fit (firstn 5 (components_ fit)) 0 nutr_df ;;
  c2 <- component_series fit (firstn 5 (components_ fit)) 1 nutr_df ;;
  top_food_groups pca_df (LStr "c1") ;;
  top_food_groups pca_df (LStr "c2") ;;
  food_groups df ;;
  ret (firstn 5 (components_ fit), c1, c2).

(** The cells of the notebook from top to bottom. *)
Definition notebook (fs : FileSystem) : M Namespace :=
  df <- load fs ;;
  tables <- split_descriptive df ;;
  nutr_df <- drop_correlated (snd tables) ;;
  normal <- normalize nutr_df ;;
  nutr_df_TF <- center (snd normal) ;;
  fit_pca <- decompose nutr_df_TF ;;
  pca_df <- components_frame (snd fit_pca) df (fst tables) ;;
  series <- interpret (fst fit_pca) (fst normal) pca_df df ;;
  ret (mkNamespace df (fst tables) (fst normal) nutr_df_TF (fst fit_pca) (snd fit_pca)
                   pca_df (fst (fst series)) (snd (fst series)) (snd series)).

End Notebook.

(** ** A small instance

    A three-row table with the layout of the USDA file (54 columns: the
    identifier, the two descriptive columns, 46 nutrient columns, the five
    weight and refuse columns), and stand-ins for the numerical routines, on
    which the notebook can be run. *)
Module Demo.

Definition nutrient_names : list label :=
  correlated ++ map (fun i => LStr ("Nutr_" ++ NilZero.string_of_uint (Nat.to_uint i)))
                    (seq 6 43).

Definition header : list label :=
  [NDB_No; FoodGroup; Shrt_Desc] ++ nutrient_names
  ++ [LStr "GmWt_1"; LStr "GmWt_Desc1"; LStr "GmWt_2"; LStr "GmWt_Desc2";
      LStr "Refuse_Pct"].

(** The cells of one column: the second row has no [Nutr_7]. *)
Definition column (l : label) : list value :=
  match l with
  | LStr "NDB_No" => [Num 1001; Num 1002; Num 1003]
  | LStr "FoodGroup" => [Str "Dairy"; Str "Dairy"; Str "Spices"]
  | LStr "Shrt_Desc" => [Str "BUTTER"; Str "CHEESE"; Str "SALT"]
  | LStr "GmWt_Desc1" => [Str "1 pat"; Str "1 cup"; Str "1 tsp"]
  | LStr "GmWt_Desc2" => [Str "1 tbsp"; Str "1 oz"; Str "1 dash"]
  | LStr "Nutr_7" => [Num 0; NaN; Num (5 # 2)]
  | LStr "Nutr_8" => [Num 3; Num 1; Num 0]
  | _ => [Num 2; Num 7; Num 1]
  end.

Definition table : DataFrame :=
  mkFrame [Num 0; Num 1; Num 2] (map (fun l => (l, column l)) header).

(** The same table with [Nutr_8] an [int64] column that holds the largest
    [int64]. *)
Definition column_max (l : label) : list value :=
  match l with
  | LStr "Nutr_8" => [Int 9223372036854775807; Int 1; Int 0]
  | _ => column l
  end.

Definition table_max : DataFrame :=
  mkFrame [Num 0; Num 1; Num 2] (map (fun l => (l, column_max l)) header).

Definition shift (v : value) : value :=
  match v with
  | Int z => Int (z - 1)
  | Num q => Num (q - 1)%Q
  | _ => v
  end.

#[local] Instance lib : Library := {|
  parse_csv := fun _ contents =>
    match contents with
    | [] => Error (Exn "EmptyDataError" "No columns to parse from file")
    | [Byte.x4d] => Ok table_max
    | _ => Ok table
    end;
  boxcox_mle := fun x => Ok (map shift x, Num 1);
  StandardScaler_fit_transform := fun d => Ok (mkArray (nrows d) (map snd (columns d)));
  PCA_fit_transform := fun a =>
    Ok (mkPCA (repeat (Num 0) (length (acols a)))
              (repeat (repeat (Num 0) (length (acols a))) (length (acols a))),
        a);
  display := fun _ => Ok tt
|}.

Definition disk : FileSystem :=
  fun path => if String.eqb path csv_path then Some [Byte.x4e] else None.



(** The same file next to another one. *)
Definition disk' : FileSystem :=
  fun path => if String.eqb path "notes.txt" then Some [Byte.x00] else disk path.

End Demo.

(** ** Vocabulary of the properties *)



(** The steps of the data path. *)
Inductive step : Type :=
| ReadCsv | DropRows | DropColumns | Transform | Scale | Decompose | Results.

Definition rank (s : step) : nat :=
  match s with
  | ReadCsv => 0 | DropRows => 1 | DropColumns => 2 | Transform => 3
  | Scale => 4 | Decompose => 5 | Results => 6
  end.

Fixpoint labels_eqb (a b : list label) : bool :=
  match a, b with
  | [], [] => true
  | x :: a', y :: b' => label_eqb x y && labels_eqb a' b'
  | _, _ => false
  end.

(** The step a call belongs to.  The displays of the tables on the way
    ([info], [shape], [head], [hist], the mean and standard-deviation prints)
    belong to no step; [drop] is a column drop of the data path unless it is
    the one that tidies the table of results. *)
Definition step_of (c : call) : option step :=
  match c with
  | read_csv_call _ _ => Some ReadCsv
  | dropna_call _ => Some DropRows
  | iloc_call _ _ | iloc_drop_last_call _ _ | set_index_call _ _ => Some DropColumns
  | drop_call _ names =>
      if labels_eqb names desc_dropped then Some Results else Some DropColumns
  | add_call _ _ | loc_call _ _ | boxcox_call _ | setitem_call _ _ _ => Some Transform
  | StandardScaler_call _ => Some Scale
  | PCA_call _ => Some Decompose
  | plot_call _ | print_sum_call _ | print_cumsum_call _ | plot_cumsum_call _
  | title_call _ | DataFrame_call _ _ | join_call _ _ | rename_call _ _
  | corr_call _ | components_call _ _ | Series_call _ _ | sorted_series_call _
  | sort_values_call _ _ | getitem_call _ _ | value_counts_call _ => Some Results
  | info_call _ | shape_call _ | head_call _ | hist_call _
  | print_mean_call _ | print_std_call _ => None
  end.

Definition steps (tr : list event) : list nat :=
  flat_map (fun ev => match step_of (event_call ev) with
                      | Some s => [rank s]
                      | None => []
                      end) tr.

(** The ranks never go down, starting from [lo]. *)
Fixpoint ascending (lo : nat) (l : list nat) : bool :=
  match l with
  | [] => true
  | s :: rest => (lo <=? s) && ascending s rest
  end.

Definition is_read_csv (ev : event) : bool :=
  match event_call ev with read_csv_call _ _ => true | _ => false end.









(** The columns the notebook addresses by name. *)
Definition required_columns : list label :=
  [NDB_No; FoodGroup; Shrt_Desc] ++ correlated ++ desc_dropped.

(** No row label of one table is a row label of the other. *)
Definition disjoint_labels (a b : list value) : Prop :=
  forall x y, In x a -> In y b -> value_eqb x y = false.

Definition is_text (l : label) : bool :=
  match l with LStr _ => true | LInt _ => false end.



(** The steps of the log go up from [lo] and stay at or below [hi]. *)
Definition between {A : Type} (lo hi : nat) (m : M A) : Prop :=
  ascending lo (steps (fst m)) = true /\ Forall (fun s => s <= hi) (steps (fst m)).



(** The label of the transformed column. *)
Definition TF_label (l : label) : label := LStr (format_label l ++ "_TF").

(** The rows of a table, top to bottom: the row label and the cells. *)
Definition row (d : DataFrame) (i : nat) : value * list value :=
  (nth i (index d) NaN, map (fun lc => nth i (snd lc) NaN) (columns d)).

Definition rows (d : DataFrame) : list (value * list value) :=
  map (row d) (seq 0 (nrows d)).

(** Every column has one cell for each row label. *)
Definition rectangular (d : DataFrame) : Prop :=
  Forall (fun lc => length (snd lc) = nrows d) (columns d).

(** ** The monad *)

Lemma bind_cases {A B : Type} (m : M A) (f : A -> M B) :
  (exists e, snd m = Error e /\ bind m f = (fst m, Error e)) \/
  (exists a, snd m = Ok a /\ bind m f = (fst m ++ fst (f a), snd (f a))).
Proof.
  unfold bind. destruct (snd m) as [a | e]; [right | left]; eauto.
Qed.

Lemma bind_ok {A B : Type} (m : M A) (f : A -> M B) tr b :
  bind m f = (tr, Ok b) ->
  exists a t1 t2, m = (t1, Ok a) /\ f a = (t2, Ok b) /\ tr = t1 ++ t2.
Proof.
  destruct m as [t1 r]. unfold bind. simpl. destruct r as [a | e]; [| discriminate].
  destruct (f a) as [t2 r2] eqn:E. simpl. intros H. inversion H; subst.
  exists a, t1, t2. auto.
Qed.

Lemma perform_ok {A : Type} (c : call) (r : result A) tr a :
  perform c r = (tr, Ok a) -> r = Ok a /\ tr = [Ev c None].
Proof.
  unfold perform. intros H. inversion H; subst. auto.
Qed.

Lemma ret_ok {A : Type} (a b : A) tr : ret a = (tr, Ok b) -> a = b /\ tr = [].
Proof.
  unfold ret. intros H. inversion H; auto.
Qed.

Lemma snd_bind_perform {A B : Type} c (r : result A) a (f : A -> M B) :
  r = Ok a -> snd (bind (perform c r) f) = snd (f a).
Proof. intros E. subst r. reflexivity. Qed.

Lemma bind_snd_ok {A B : Type} (m : M A) (f : A -> M B) b :
  snd (bind m f) = Ok b -> exists a, snd m = Ok a /\ snd (f a) = Ok b.
Proof.
  destruct (bind_cases m f) as [(e & _ & E) | (a & Ha & E)]; rewrite E; simpl.
  - discriminate.
  - eauto.
Qed.

Lemma in_bind {A B : Type} (m : M A) (f : A -> M B) ev :
  In ev (fst (bind m f)) ->
  In ev (fst m) \/ exists a, snd m = Ok a /\ In ev (fst (f a)).
Proof.
  destruct (bind_cases m f) as [(e & _ & E) | (a & Ha & E)]; rewrite E; simpl.
  - auto.
  - rewrite in_app_iff. intros [H | H]; eauto.
Qed.

Lemma in_bind_l {A B : Type} (m : M A) (f : A -> M B) ev :
  In ev (fst m) -> In ev (fst (bind m f)).
Proof.
  destruct (bind_cases m f) as [(e & _ & E) | (a & Ha & E)]; rewrite E; simpl; auto.
  rewrite in_app_iff. auto.
Qed.

Lemma in_bind_r {A B : Type} (m : M A) (f : A -> M B) a ev :
  snd m = Ok a -> In ev (fst (f a)) -> In ev (fst (bind m f)).
Proof.
  intros Ha H. destruct (bind_cases m f) as [(e & He & _) | (a' & Ha' & E)].
  - congruence.
  - rewrite E. simpl. rewrite in_app_iff. right. congruence.
Qed.

(** A property of every logged call is kept by sequencing. *)
Lemma Forall_bind {A B : Type} (P : event -> Prop) (Q : A -> Prop)
      (m : M A) (f : A -> M B) :
  Forall P (fst m) -> (forall a, snd m = Ok a -> Q a) ->
  (forall a, Q a -> Forall P (fst (f a))) ->
  Forall P (fst (bind m f)).
Proof.
  intros Hm HQ Hf.
  destruct (bind_cases m f) as [(e & _ & E) | (a & Ha & E)]; rewrite E; simpl; auto.
  apply Forall_app. auto.
Qed.

Lemma Forall_bind' {A B : Type} (P : event -> Prop) (m : M A) (f : A -> M B) :
  Forall P (fst m) -> (forall a, Forall P (fst (f a))) -> Forall P (fst (bind m f)).
Proof.
  intros Hm Hf. apply (Forall_bind P (fun _ => True)); auto.
Qed.

Lemma Forall_perform {A : Type} (P : event -> Prop) (c : call) (r : result A) :
  P (Ev c (raised_by r)) -> Forall P (fst (perform c r)).
Proof.
  intros H. simpl. auto.
Qed.

Lemma Forall_ret {A : Type} (P : event -> Prop) (a : A) : Forall P (fst (ret a)).
Proof.
  simpl. constructor.
Qed.






(** ** Properties of every logged call *)

Section Logged.

Context {L : Library}.

Lemma Forall_show (P : event -> Prop) c :
  P (Ev c (raised_by (display c))) -> Forall P (fst (show c)).
Proof. apply Forall_perform. Qed.

Lemma Forall_boxcox_columns (P : event -> Prop) d cols tf :
  (forall col, P (Ev (loc_call d col) (raised_by (getitem d col)))) ->
  (forall x, In x (map snd (columns d)) -> P (Ev (boxcox_call x) (raised_by (boxcox x)))) ->
  (forall t n y, P (Ev (setitem_call t n y) (raised_by (setitem t n y)))) ->
  Forall P (fst (boxcox_columns d cols tf)).
Proof.
  intros Hloc Hbox Hset. revert tf.
  induction cols as [| col rest IH]; intros tf; simpl.
  - constructor.
  - apply (Forall_bind P (fun x => In x (map snd (columns d)))).
    + apply Forall_perform, Hloc.
    + simpl. unfold getitem, loc. intros x.
      destruct (find _ (columns d)) as [lc |] eqn:E; simpl; [| discriminate].
      intros H. inversion H; subst. apply find_some in E.
      apply in_map. apply E.
    + intros x Hx. apply Forall_bind'; [apply Forall_perform, Hbox, Hx | intros y].
      apply Forall_bind'; [apply Forall_perform, Hset | intros t]. apply IH.
Qed.

End Logged.

(** Splits a goal [Forall P (fst m)] along the calls of [m]. *)
Ltac logged :=
  repeat first
    [ apply Forall_ret
    | apply Forall_show
    | apply Forall_perform
    | apply Forall_bind'; [| intros ?] ].


Section LoggedNotebook.

Context {L : Library}.


End LoggedNotebook.

(** ** The order of the steps *)

Lemma steps_app a b : steps (a ++ b) = steps a ++ steps b.
Proof. unfold steps. apply flat_map_app. Qed.

Lemma ascending_weaken lo lo' l : lo <= lo' -> ascending lo' l = true -> ascending lo l = true.
Proof.
  destruct l as [| s rest]; simpl; auto.
  intros Hle H. apply andb_true_iff in H. destruct H as [H1 H2].
  apply Nat.leb_le in H1. apply andb_true_iff. split; [apply Nat.leb_le; lia | exact H2].
Qed.

Lemma ascending_app lo mid l1 l2 :
  ascending lo l1 = true -> Forall (fun s => s <= mid) l1 -> lo <= mid ->
  ascending mid l2 = true -> ascending lo (l1 ++ l2) = true.
Proof.
  revert lo. induction l1 as [| s rest IH]; intros lo H1 Hb Hle H2; simpl.
  - apply (ascending_weaken lo mid); assumption.
  - simpl in H1. apply andb_true_iff in H1. destruct H1 as [Hs Hrest].
    inversion Hb; subst. apply andb_true_iff. split; [exact Hs |].
    apply IH; assumption.
Qed.

Lemma between_ret {A : Type} lo hi (a : A) : between lo hi (ret a).
Proof. split; [reflexivity | constructor]. Qed.

Lemma between_perform {A : Type} lo hi c (r : result A) :
  match step_of c with
  | Some s => lo <= rank s /\ rank s <= hi
  | None => True
  end -> between lo hi (perform c r).
Proof.
  unfold between, steps. simpl. destruct (step_of c) as [s |]; simpl.
  - intros [H1 H2]. split; [| repeat constructor; assumption].
    apply andb_true_iff. split; [apply Nat.leb_le; assumption | reflexivity].
  - intros _. split; [reflexivity | constructor].
Qed.

Lemma between_bind {A B : Type} lo mid hi (m : M A) (f : A -> M B) :
  lo <= mid -> mid <= hi ->
  between lo mid m -> (forall a, between mid hi (f a)) -> between lo hi (bind m f).
Proof.
  intros Hlo Hhi [Hm1 Hm2] Hf. unfold between.
  destruct (bind_cases m f) as [(e & _ & E) | (a & Ha & E)]; rewrite E; simpl.
  - split; [exact Hm1 |]. eapply Forall_impl; [| exact Hm2]. simpl. intros; lia.
  - destruct (Hf a) as [Hf1 Hf2]. rewrite steps_app. split.
    + apply (ascending_app lo mid); assumption.
    + apply Forall_app. split; [| exact Hf2].
      eapply Forall_impl; [| exact Hm2]. simpl. intros; lia.
Qed.

(** Splits a goal [between k k m] along the calls of [m], all of step [k] or
    of no step. *)
Ltac same_step :=
  repeat first
    [ apply between_ret
    | apply between_perform; simpl; first [exact I | lia]
    | eapply between_bind; [apply Nat.le_refl | apply Nat.le_refl | | intros ?] ].

Section Order.

Context {L : Library}.

Lemma between_load fs : between 0 1 (load fs).
Proof.
  unfold load, show.
  apply (between_bind 0 0 1); [lia | lia | apply between_perform; simpl; lia | intros ?].
  apply (between_bind 0 0 1); [lia | lia | apply between_perform; simpl; exact I | intros ?].
  apply (between_bind 0 1 1); [lia | lia | apply between_perform; simpl; lia | intros ?].
  same_step.
Qed.

Lemma between_boxcox_columns d cols tf : between 3 3 (boxcox_columns d cols tf).
Proof.
  revert tf. induction cols as [| col rest IH]; intros tf; simpl.
  - apply between_ret.
  - same_step. apply IH.
Qed.

Lemma between_decompose a : between 5 6 (decompose a).
Proof.
  unfold decompose, show.
  apply (between_bind 5 5 6); [lia | lia | apply between_perform; simpl; lia | intros ?].
  apply (between_bind 5 6 6); [lia | lia | apply between_perform; simpl; lia | intros ?].
  same_step.
Qed.

Lemma between_notebook fs : between 0 6 (notebook fs).
Proof.
  unfold notebook.
  apply (between_bind 0 1 6); [lia | lia | apply between_load | intros ?].
  apply (between_bind 1 2 6); [lia | lia | | intros ?].
  { apply (between_bind 1 2 2); [lia | lia | apply between_perform; simpl; lia | intros ?].
    unfold show. same_step. }
  apply (between_bind 2 2 6); [lia | lia | unfold drop_correlated, show; same_step | intros ?].
  apply (between_bind 2 3 6); [lia | lia | | intros ?].
  { unfold normalize, boxcox_transform, show.
    apply (between_bind 2 2 3); [lia | lia | apply between_perform; simpl; exact I | intros ?].
    apply (between_bind 2 3 3); [lia | lia | apply between_perform; simpl; lia | intros ?].
    apply (between_bind 3 3 3); [lia | lia | apply between_boxcox_columns | intros ?].
    same_step. }
  apply (between_bind 3 4 6); [lia | lia | | intros ?].
  { unfold center, show.
    apply (between_bind 3 4 4); [lia | lia | apply between_perform; simpl; lia | intros ?].
    same_step. }
  apply (between_bind 4 6 6); [lia | lia | | intros ?].
  { destruct (between_decompose a3) as [H1 H2]. split; [| exact H2].
    apply (ascending_weaken 4 5); [lia | exact H1]. }
  apply (between_bind 6 6 6); [lia | lia | | intros ?].
  { unfold components_frame, show. same_step. }
  apply (between_bind 6 6 6); [lia | lia | | intros ?; apply between_ret].
  unfold interpret, component_series, top_food_groups, food_groups, show. same_step.
Qed.

End Order.

(** ** Runs that return *)

(** Takes apart the hypotheses that say a straight line of calls returned. *)
Ltac run_inv :=
  repeat match goal with
  | H : bind _ _ = (_, Ok _) |- _ =>
      apply bind_ok in H; destruct H as (? & ? & ? & ? & H & ?); cbv beta in H
  | H : perform _ _ = (_, Ok _) |- _ => apply perform_ok in H; destruct H
  | H : ret _ = (_, Ok _) |- _ => apply ret_ok in H; destruct H
  | H : Ok _ = Ok _ |- _ => inversion H; clear H
  | H : (_, _) = (_, _) |- _ => inversion H; clear H
  end.

Lemma snd_ok {A : Type} (m : M A) a : snd m = Ok a -> m = (fst m, Ok a).
Proof. destruct m; simpl; intros; subst; reflexivity. Qed.

Section Returned.

Context {L : Library}.

Lemma steps_boxcox_columns d cols tf tr tf' :
  boxcox_columns d cols tf = (tr, Ok tf') -> steps tr = repeat 3 (3 * length cols).
Proof.
  revert tf tr. induction cols as [| col rest IH]; intros tf tr H; simpl in H.
  - run_inv. subst. reflexivity.
  - run_inv. subst. apply IH in H. rewrite !steps_app, H. simpl.
    replace (length rest + S (length rest + S (length rest + 0)))
      with (2 + 3 * length rest) by lia.
    reflexivity.
Qed.

(** What a run that returns has done, stage by stage. *)
Lemma notebook_ok fs tr ns :
  notebook fs = (tr, Ok ns) ->
  exists d0 nutr0 nutr1 tf t1 t2 t3 t4 t5 t6 t7 t8 t9,
    read_csv fs csv_path csv_encoding = Ok d0
    /\ df ns = dropna d0
    /\ load fs = (t1, Ok (df ns))
    /\ split_descriptive (df ns) = (t2, Ok (desc_df ns, nutr0))
    /\ drop_correlated nutr0 = (t3, Ok nutr1)
    /\ add_scalar nutr1 1 = Ok (nutr_df ns)
    /\ boxcox_transform (nutr_df ns) = (t4, Ok tf)
    /\ normalize nutr1 = (t5, Ok (nutr_df ns, tf))
    /\ center tf = (t6, Ok (nutr_df_TF ns))
    /\ decompose (nutr_df_TF ns) = (t7, Ok (fit ns, pca ns))
    /\ components_frame (pca ns) (df ns) (desc_df ns) = (t8, Ok (pca_df ns))
    /\ interpret (fit ns) (nutr_df ns) (pca_df ns) (df ns) = (t9, Ok (vects ns, c1 ns, c2 ns))
    /\ tr = t1 ++ t2 ++ t3 ++ t5 ++ t6 ++ t7 ++ t8 ++ t9.
Proof.
  intros H. unfold notebook in H. run_inv. subst. simpl.
  repeat match goal with x : (_ * _)%type |- _ => destruct x end. simpl in *.
  match goal with H : load fs = _ |- _ => pose proof H as Hload end.
  match goal with H : normalize _ = _ |- _ => pose proof H as Hnorm end.
  unfold load, show in Hload. unfold normalize, show in Hnorm. run_inv. subst.
  rewrite ?app_nil_r in *.
  do 13 eexists. repeat split; try eassumption; try reflexivity.
Qed.

End Returned.

Section StepsReturned.

Context {L : Library}.

Lemma steps_load fs t d : load fs = (t, Ok d) -> steps t = [0; 1].
Proof. unfold load, show. intros H. run_inv. subst. reflexivity. Qed.

Lemma steps_split d t r : split_descriptive d = (t, Ok r) -> steps t = repeat 2 5.
Proof. unfold split_descriptive, show. intros H. run_inv. subst. reflexivity. Qed.

Lemma steps_drop_correlated d t r : drop_correlated d = (t, Ok r) -> steps t = [2].
Proof. unfold drop_correlated, show. intros H. run_inv. subst. reflexivity. Qed.

Lemma steps_normalize d t r :
  normalize d = (t, Ok r) -> steps t = repeat 3 (1 + 3 * length (columns (fst r))).
Proof.
  unfold normalize, boxcox_transform, show. intros H. run_inv. subst.
  match goal with
  | Hb : boxcox_columns _ _ _ = _ |- _ =>
      apply steps_boxcox_columns in Hb; rewrite !steps_app, Hb
  end.
  unfold labels. rewrite length_map. simpl.
  rewrite app_nil_r. reflexivity.
Qed.

Lemma steps_center d t r : center d = (t, Ok r) -> steps t = [4].
Proof. unfold center, show. intros H. run_inv. subst. reflexivity. Qed.

Lemma steps_decompose a t r : decompose a = (t, Ok r) -> steps t = 5 :: repeat 6 5.
Proof. unfold decompose, show. intros H. run_inv. subst. reflexivity. Qed.

Lemma steps_components_frame a d e t r :
  components_frame a d e = (t, Ok r) -> steps t = repeat 6 5.
Proof. unfold components_frame, show. intros H. run_inv. subst. reflexivity. Qed.

Lemma steps_interpret f d e g t r :
  interpret f d e g = (t, Ok r) -> steps t = repeat 6 14.
Proof.
  unfold interpret, component_series, top_food_groups, food_groups, show.
  intros H. run_inv. subst. reflexivity.
Qed.

(** C4. The data path runs in the order: read the CSV, drop the rows with a
    missing value, drop the descriptive and the correlated columns, Box-Cox
    transform column by column, standardize, decompose, plot and inspect the
    results.  In every run, also one that an exception stops, the steps of the
    logged calls never go back.  In a run that returns, each step consumed
    what the step before it produced, and the steps are exactly: one read,
    one row drop, six column selections and drops, the addition of 1 and three
    calls for each column of the transform, one standardization, one
    decomposition, and then the 24 calls that plot and inspect the results.
    (The displays of intermediate tables, [info], [shape], [head], [hist] and
    the prints of mean and standard deviation, lie between these steps and
    belong to none.) *)
Theorem C4_steps_in_order (fs : FileSystem) :
  ascending 0 (steps (fst (notebook fs))) = true
  /\ forall ns, snd (notebook fs) = Ok ns ->
       (exists d0 nutr0 nutr1 tf,
           read_csv fs csv_path csv_encoding = Ok d0
           /\ df ns = dropna d0
           /\ snd (split_descriptive (df ns)) = Ok (desc_df ns, nutr0)
           /\ snd (drop_correlated nutr0) = Ok nutr1
           /\ add_scalar nutr1 1 = Ok (nutr_df ns)
           /\ snd (boxcox_transform (nutr_df ns)) = Ok tf
           /\ StandardScaler_fit_transform tf = Ok (nutr_df_TF ns)
           /\ PCA_fit_transform (nutr_df_TF ns) = Ok (fit ns, pca ns)
           /\ snd (components_frame (pca ns) (df ns) (desc_df ns)) = Ok (pca_df ns)
           /\ snd (interpret (fit ns) (nutr_df ns) (pca_df ns) (df ns))
              = Ok (vects ns, c1 ns, c2 ns))
       /\ steps (fst (notebook fs))
          = [0; 1] ++ repeat 2 6
            ++ repeat 3 (1 + 3 * length (columns (nutr_df ns)))
            ++ [4; 5] ++ repeat 6 24.
Proof.
  split; [apply between_notebook |].
  intros ns Hns. apply snd_ok in Hns.
  destruct (notebook_ok _ _ _ Hns)
    as (d0 & nutr0 & nutr1 & tf & t1 & t2 & t3 & t4 & t5 & t6 & t7 & t8 & t9
        & Hread & Hdf & H1 & H2 & H3 & Hadd & H4 & H5 & H6 & H7 & H8 & H9 & Htr).
  split.
  - exists d0, nutr0, nutr1, tf.
    rewrite H2, H3, H4, H8, H9. simpl.
    repeat split; try assumption.
    + unfold center, show in H6. run_inv. congruence.
    + unfold decompose, show in H7. run_inv. subst.
      match goal with H : PCA_fit_transform _ = _ |- _ => rewrite H end.
      simpl. reflexivity.
  - rewrite Htr, !steps_app.
    rewrite (steps_load _ _ _ H1), (steps_split _ _ _ H2),
      (steps_drop_correlated _ _ _ H3), (steps_normalize _ _ _ H5),
      (steps_center _ _ _ H6), (steps_decompose _ _ _ H7),
      (steps_components_frame _ _ _ _ _ H8), (steps_interpret _ _ _ _ _ _ H9).
    simpl fst. reflexivity.
Qed.

End StepsReturned.

(** On the demonstration disk the run returns, with 43 transformed columns. *)
Lemma C4_steps_in_order_witness :
  exists ns,
    snd (@notebook Demo.lib Demo.disk) = Ok ns
    /\ steps (fst (@notebook Demo.lib Demo.disk))
       = [0; 1] ++ repeat 2 6 ++ repeat 3 (1 + 3 * 43) ++ [4; 5] ++ repeat 6 24.
Proof.
  destruct (snd (@notebook Demo.lib Demo.disk)) as [ns |] eqn:E;
    [| vm_compute in E; discriminate].
  exists ns. split; [reflexivity |].
  destruct (@C4_steps_in_order Demo.lib Demo.disk) as [_ H].
  destruct (H ns E) as [_ Hs]. rewrite Hs.
  replace (length (columns (nutr_df ns))) with 43; [reflexivity |].
  assert (Hn : option_map (fun n => length (columns (nutr_df n)))
                 (match snd (@notebook Demo.lib Demo.disk) with
                  | Ok n => Some n | Error _ => None end) = Some 43)
    by (vm_compute; reflexivity).
  rewrite E in Hn. simpl in Hn. inversion Hn. reflexivity.
Defined.

(** ** Facts about the table operations *)

Lemma label_eqb_eq a b : label_eqb a b = true <-> a = b.
Proof.
  destruct a as [s | x], b as [t | y]; simpl.
  - rewrite String.eqb_eq. split; congruence.
  - split; discriminate.
  - split; discriminate.
  - rewrite Z.eqb_eq. split; congruence.
Qed.

Lemma label_eqb_refl a : label_eqb a a = true.
Proof. apply label_eqb_eq. reflexivity. Qed.

Lemma existsb_label_eqb n (ls : list label) :
  existsb (label_eqb n) ls = true <-> In n ls.
Proof.
  rewrite existsb_exists. split.
  - intros (x & Hin & E). apply label_eqb_eq in E. subst. exact Hin.
  - intros Hin. exists n. split; [exact Hin | apply label_eqb_refl].
Qed.

Lemma existsb_label_eqb' n (ls : list label) :
  existsb (fun l => label_eqb l n) ls = true <-> In n ls.
Proof.
  rewrite existsb_exists. split.
  - intros (x & Hin & E). apply label_eqb_eq in E. subst. exact Hin.
  - intros Hin. exists n. split; [exact Hin | apply label_eqb_refl].
Qed.

Lemma loc_some d name c :
  loc d name = Some c -> In (name, c) (columns d).
Proof.
  unfold loc. destruct (find _ (columns d)) as [lc |] eqn:E; simpl; [| discriminate].
  intros H. inversion H; subst. apply find_some in E. destruct E as [Hin E].
  apply label_eqb_eq in E. destruct lc as [l x]. simpl in *. subst. exact Hin.
Qed.

Lemma loc_none d name : loc d name = None -> ~ In name (labels d).
Proof.
  unfold loc, labels. destruct (find _ (columns d)) as [lc |] eqn:E; simpl; [discriminate |].
  intros _ Hin. apply in_map_iff in Hin. destruct Hin as (lc & El & Hin).
  pose proof (find_none _ _ E lc Hin) as Hn. simpl in Hn.
  rewrite El, label_eqb_refl in Hn. discriminate.
Qed.

(** With distinct labels, a column is found by its label. *)
Lemma loc_unique d name c :
  NoDup (labels d) -> In (name, c) (columns d) -> loc d name = Some c.
Proof.
  unfold loc, labels. induction (columns d) as [| lc rest IH]; simpl; [tauto |].
  intros Hnd [E | Hin].
  - subst lc. simpl. rewrite label_eqb_refl. reflexivity.
  - inversion Hnd; subst.
    destruct (label_eqb (fst lc) name) eqn:E.
    + apply label_eqb_eq in E. subst name. exfalso.
      match goal with H : ~ In _ _ |- _ => apply H end.
      apply in_map_iff. exists (fst lc, c). auto.
    + apply IH; assumption.
Qed.

Lemma remove_cols_incl names cs : incl (remove_cols names cs) cs.
Proof. unfold remove_cols. intros x Hx. apply filter_In in Hx. apply Hx. Qed.

Lemma remove_cols_labels names cs l :
  In l (map fst (remove_cols names cs)) <-> In l (map fst cs) /\ ~ In l names.
Proof.
  unfold remove_cols. rewrite !in_map_iff. split.
  - intros (lc & E & Hin). apply filter_In in Hin. destruct Hin as [Hin Hneg].
    subst l. split; [eauto |]. intros Hn. apply existsb_label_eqb in Hn.
    rewrite Hn in Hneg. discriminate.
  - intros [(lc & E & Hin) Hn]. exists lc. split; [exact E |].
    apply filter_In. split; [exact Hin |]. subst l.
    destruct (existsb (label_eqb (fst lc)) names) eqn:Ex; [| reflexivity].
    apply existsb_label_eqb in Ex. contradiction.
Qed.

Lemma drop_ok d names d' :
  drop d names = Ok d' ->
  (forall n, In n names -> In n (labels d))
  /\ d' = mkFrame (index d) (remove_cols names (columns d)).
Proof.
  unfold drop. destruct (find _ names) as [n |] eqn:E; [discriminate |].
  intros H. inversion H; subst. split; [| reflexivity].
  intros n Hn. pose proof (find_none _ _ E n Hn) as Hf. simpl in Hf.
  apply negb_false_iff in Hf. apply existsb_label_eqb in Hf. exact Hf.
Qed.

Lemma drop_missing d names n :
  In n names -> ~ In n (labels d) -> exists m, drop d names = Error (KeyError m).
Proof.
  intros Hn Hd. unfold drop. destruct (find _ names) as [m |] eqn:E; [eauto |].
  exfalso. pose proof (find_none _ _ E n Hn) as Hf. simpl in Hf.
  apply negb_false_iff in Hf. apply existsb_label_eqb in Hf. contradiction.
Qed.

Lemma set_index_ok d name d' :
  set_index d name = Ok d' ->
  exists c, In (name, c) (columns d)
            /\ d' = mkFrame c (remove_cols [name] (columns d)).
Proof.
  unfold set_index. destruct (loc d name) as [c |] eqn:E; [| discriminate].
  intros H. inversion H; subst. exists c. split; [apply loc_some, E | reflexivity].
Qed.

Lemma pick_incl {A : Type} (l : list A) pos cs : pick l pos = Some cs -> incl cs l.
Proof.
  revert cs. induction pos as [| i rest IH]; simpl; intros cs H.
  - inversion H. intros x [].
  - destruct (nth_error l i) as [a |] eqn:E; [| discriminate].
    destruct (pick l rest) as [t |]; [| discriminate].
    inversion H; subst. intros x [Hx | Hx].
    + subst. apply nth_error_In in E. exact E.
    + apply (IH t); [reflexivity | exact Hx].
Qed.

Lemma pick_nth {A : Type} (l : list A) pos cs :
  pick l pos = Some cs -> map Some cs = map (nth_error l) pos.
Proof.
  revert cs. induction pos as [| i rest IH]; simpl; intros cs H.
  - inversion H. reflexivity.
  - destruct (nth_error l i) as [a |] eqn:E; [| discriminate].
    destruct (pick l rest) as [t |]; [| discriminate].
    inversion H; subst. simpl. rewrite (IH t); reflexivity.
Qed.

Lemma pick_none {A : Type} (l : list A) pos :
  pick l pos = None <-> exists i, In i pos /\ length l <= i.
Proof.
  induction pos as [| i rest IH]; simpl.
  - split; [discriminate | intros (i & [] & _)].
  - destruct (nth_error l i) as [a |] eqn:E.
    + destruct (pick l rest) as [t |].
      * split; [discriminate |]. intros (j & [Hj | Hj] & Hle).
        -- subst j. apply nth_error_None in Hle. congruence.
        -- assert (Hn : @None (list A) = None) by reflexivity.
           destruct IH as [_ IH]. discriminate IH. eauto.
      * split; [| reflexivity]. intros _. destruct IH as [IH _].
        destruct (IH eq_refl) as (j & Hj & Hle). eauto.
    + split; [| reflexivity]. intros _. exists i. split; [auto |].
      apply nth_error_None. exact E.
Qed.

Lemma iloc_cols_ok d pos d' :
  iloc_cols d pos = Ok d' ->
  index d' = index d /\ incl (columns d') (columns d)
  /\ map Some (columns d') = map (nth_error (columns d)) pos.
Proof.
  unfold iloc_cols. destruct (pick (columns d) pos) as [cs |] eqn:E; [| discriminate].
  intros H. inversion H; subst. simpl.
  split; [reflexivity |]. split; [apply (pick_incl _ _ _ E) | apply (pick_nth _ _ _ E)].
Qed.

Lemma firstn_incl {A : Type} n (l : list A) : incl (firstn n l) l.
Proof.
  intros x Hx. rewrite <- (firstn_skipn n l). apply in_or_app. left. exact Hx.
Qed.

Lemma iloc_drop_last_incl d k : incl (columns (iloc_drop_last d k)) (columns d).
Proof. simpl. apply firstn_incl. Qed.

Lemma NoDup_fst_eq {A B : Type} (l : list (A * B)) k a b :
  NoDup (map fst l) -> In (k, a) l -> In (k, b) l -> a = b.
Proof.
  induction l as [| x rest IH]; simpl; [tauto |].
  intros Hnd Ha Hb. inversion Hnd as [| ? ? Hnot Hrest]; subst.
  destruct Ha as [Ha | Ha], Hb as [Hb | Hb].
  - congruence.
  - subst x. exfalso. apply Hnot. simpl. apply in_map_iff. exists (k, b). auto.
  - subst x. exfalso. apply Hnot. simpl. apply in_map_iff. exists (k, a). auto.
  - apply IH; assumption.
Qed.

Lemma take_rows_labels pos d : labels (take_rows pos d) = labels d.
Proof.
  unfold labels, take_rows. simpl. rewrite map_map. simpl. reflexivity.
Qed.

Lemma take_length pos c : length (take pos c) = length pos.
Proof. unfold take. apply length_map. Qed.

Lemma dropna_labels d : labels (dropna d) = labels d.
Proof. apply take_rows_labels. Qed.

(** After [dropna] every column has one cell for each row label. *)
Lemma dropna_rectangular d :
  Forall (fun lc => length (snd lc) = nrows (dropna d)) (columns (dropna d)).
Proof.
  unfold dropna, take_rows, nrows. simpl. apply Forall_forall. intros lc Hin.
  apply in_map_iff in Hin. destruct Hin as (lc0 & E & _). subst lc. simpl.
  rewrite !take_length. reflexivity.
Qed.

(** After [dropna] no cell is missing. *)
Lemma dropna_no_nan d v : In v (cells (dropna d)) -> isnan v = false.
Proof.
  unfold cells, dropna, take_rows. simpl. intros Hin.
  apply in_flat_map in Hin. destruct Hin as (lc & Hlc & Hv).
  apply in_map_iff in Hlc. destruct Hlc as (lc0 & E & Hlc0). subst lc. simpl in Hv.
  unfold take in Hv. apply in_map_iff in Hv. destruct Hv as (i & Ei & Hi).
  apply filter_In in Hi. destruct Hi as [_ Hrow].
  apply negb_true_iff in Hrow. unfold row_has_nan in Hrow.
  destruct (isnan v) eqn:Env; [| reflexivity].
  assert (Hex : existsb (fun lc => isnan (nth i (snd lc) NaN)) (columns d) = true).
  { apply existsb_exists. exists lc0. split; [exact Hlc0 | rewrite Ei; exact Env]. }
  congruence.
Qed.

Section Split.

Context {L : Library}.

(** C10. Splitting off the descriptive columns keeps the rows and the key.
    For the table [df] left by [dropna] (the labels of the CSV columns being
    distinct): [desc_df] is made of the columns 0-2 and 50-53 of [df] and
    [nutr_df] of all but the last five columns without [FoodGroup] and
    [Shrt_Desc], each less the column [NDB_No]; every column of either is a
    column of [df] with its cells unchanged and in the same order, one cell
    for each row of [df]; and both tables have as row labels the same
    sequence, the cells of the column [NDB_No] of [df]. *)
Theorem C10_split_keeps_rows_and_key (d0 desc nutr : DataFrame) (tr : list event) :
  NoDup (labels d0) ->
  split_descriptive (dropna d0) = (tr, Ok (desc, nutr)) ->
  (exists ndb, In (NDB_No, ndb) (columns (dropna d0))
               /\ index desc = ndb /\ index nutr = ndb)
  /\ nrows desc = nrows (dropna d0) /\ nrows nutr = nrows (dropna d0)
  /\ (forall lc, In lc (columns desc) \/ In lc (columns nutr) ->
        In lc (columns (dropna d0)) /\ length (snd lc) = nrows (dropna d0))
  /\ (exists picked,
        map Some picked = map (nth_error (columns (dropna d0))) desc_positions
        /\ columns desc = remove_cols [NDB_No] picked)
  /\ columns nutr
     = remove_cols [NDB_No]
         (remove_cols [FoodGroup; Shrt_Desc]
            (firstn (length (columns (dropna d0)) - 5) (columns (dropna d0)))).
Proof.
  intros Hnd H. set (df := dropna d0) in *.
  assert (Hnd' : NoDup (labels df)) by (unfold df; rewrite dropna_labels; exact Hnd).
  pose proof (dropna_rectangular d0) as Hrect. fold df in Hrect.
  rewrite Forall_forall in Hrect.
  unfold split_descriptive, show in H. run_inv. subst.
  repeat match goal with
         | H : iloc_cols _ _ = Ok _ |- _ => apply iloc_cols_ok in H; destruct H as (? & ? & ?)
         | H : set_index _ _ = Ok _ |- _ => apply set_index_ok in H; destruct H as (? & ? & ?)
         | H : drop _ _ = Ok _ |- _ => apply drop_ok in H; destruct H as (? & ?)
         end.
  subst. simpl in *.
  match goal with
  | H1 : In (NDB_No, ?a) ?csa, H2 : In (NDB_No, ?b) (remove_cols _ _) |- _ =>
      assert (Ha : In (NDB_No, a) (columns df)) by auto;
      assert (Hb : In (NDB_No, b) (columns df))
        by (apply (firstn_incl (length (columns df) - 5)),
              (remove_cols_incl [FoodGroup; Shrt_Desc]), H2);
      assert (Eab : a = b) by (apply (NoDup_fst_eq (columns df) NDB_No); assumption)
  end.
  subst.
  split; [eexists; repeat split; exact Hb |].
  split; [apply (Hrect _ Hb) |]. split; [apply (Hrect _ Hb) |].
  split; [| split; [eexists; split; [eassumption | reflexivity] | reflexivity]].
  intros lc [Hin | Hin].
  - apply remove_cols_incl in Hin.
    assert (Hdf : In lc (columns df)) by auto.
    split; [exact Hdf | apply (Hrect _ Hdf)].
  - apply remove_cols_incl, remove_cols_incl, firstn_incl in Hin.
    split; [exact Hin | apply (Hrect _ Hin)].
Qed.

End Split.

(** On the demonstration table: the row with a missing cell is gone and both
    tables are labelled 1001, 1003. *)
Lemma C10_split_keeps_rows_and_key_witness :
  exists desc nutr tr,
    @split_descriptive Demo.lib (dropna Demo.table) = (tr, Ok (desc, nutr))
    /\ index desc = [Num 1001; Num 1003]
    /\ index nutr = [Num 1001; Num 1003]
    /\ nrows desc = nrows (dropna Demo.table).
Proof.
  destruct (@split_descriptive Demo.lib (dropna Demo.table)) as [tr [[desc nutr] | e]] eqn:E;
    [| vm_compute in E; discriminate].
  exists desc, nutr, tr. split; [reflexivity |].
  assert (Hnd : NoDup (labels Demo.table)).
  { apply (NoDup_map_inv format_label). vm_compute.
    repeat (constructor; [simpl; intuition discriminate |]). constructor. }
  destruct (@C10_split_keeps_rows_and_key Demo.lib Demo.table desc nutr tr Hnd E)
    as ((ndb & Hin & Hd & Hn) & Hrd & _).
  assert (Endb : ndb = [Num 1001; Num 1003]).
  { assert (Hl : loc (dropna Demo.table) NDB_No = Some [Num 1001; Num 1003])
      by (vm_compute; reflexivity).
    apply loc_some in Hl.
    apply (NoDup_fst_eq (columns (dropna Demo.table)) NDB_No); [| exact Hin | exact Hl].
    fold (labels (dropna Demo.table)). rewrite dropna_labels. exact Hnd. }
  rewrite Hd, Hn, Endb. repeat split. exact Hrd.
Defined.

(** ** The CSV file *)

Lemma join_ok l r j :
  join l r = Ok j ->
  labels j = labels l ++ labels r
  /\ forall n, In n (labels l) -> ~ In n (labels r).
Proof.
  unfold join. destruct (existsb _ (labels l)) eqn:E; [discriminate |].
  intros H. inversion H; subst. unfold labels at 1. simpl.
  rewrite map_app, !map_map. simpl. split; [reflexivity |].
  intros n Hn Hr.
  assert (Hex : existsb (fun n => existsb (label_eqb n) (labels r)) (labels l) = true).
  { apply existsb_exists. exists n. split; [exact Hn |]. apply existsb_label_eqb. exact Hr. }
  congruence.
Qed.

Lemma frame_of_array_labels a idx d :
  frame_of_array a idx = Ok d -> Forall (fun l => is_text l = false) (labels d).
Proof.
  unfold frame_of_array. destruct (shape0 a =? length idx); [| discriminate].
  intros H. inversion H; subst. unfold labels. simpl.
  apply Forall_forall. intros l Hl. apply in_map_iff in Hl.
  destruct Hl as ((l' & c) & E & Hin). simpl in E. subst l'.
  apply in_combine_l in Hin. apply in_map_iff in Hin.
  destruct Hin as (j & E & _). subst l. reflexivity.
Qed.

Section Csv.

Context {L : Library}.

Lemma components_frame_needs a d desc t r :
  components_frame a d desc = (t, Ok r) ->
  forall n, In n desc_dropped -> In n (labels desc).
Proof.
  unfold components_frame, show. intros H n Hn. run_inv. subst.
  match goal with H : frame_of_array _ _ = Ok _ |- _ => apply frame_of_array_labels in H;
    rename H into Hint end.
  match goal with H : join _ _ = Ok _ |- _ => apply join_ok in H; destruct H as [Hj _] end.
  match goal with H : drop _ _ = Ok _ |- _ => apply drop_ok in H; destruct H as [Hd _] end.
  specialize (Hd n Hn). rewrite Hj in Hd. apply in_app_or in Hd.
  destruct Hd as [Hd | Hd]; [| exact Hd].
  rewrite Forall_forall in Hint. apply Hint in Hd.
  unfold desc_dropped in Hn. simpl in Hn.
  repeat (destruct Hn as [Hn | Hn]; [subst n; discriminate |]). destruct Hn.
Qed.

Lemma split_needs d t desc nutr :
  split_descriptive d = (t, Ok (desc, nutr)) ->
  (forall n, In n [NDB_No; FoodGroup; Shrt_Desc] -> In n (labels d))
  /\ incl (labels desc) (labels d)
  /\ incl (labels nutr) (labels d).
Proof.
  unfold split_descriptive, show. intros H. run_inv. subst.
  repeat match goal with
         | H : iloc_cols _ _ = Ok _ |- _ => apply iloc_cols_ok in H; destruct H as (? & ? & ?)
         | H : set_index _ _ = Ok _ |- _ => apply set_index_ok in H; destruct H as (? & ? & ?)
         | H : drop _ _ = Ok _ |- _ => apply drop_ok in H; destruct H as (? & ?)
         end.
  subst. simpl in *.
  assert (Hfirst : incl (labels (iloc_drop_last d 5)) (labels d)).
  { unfold labels. apply incl_map. apply iloc_drop_last_incl. }
  split; [| split].
  - intros n [E | [E | [E | []]]]; subst n.
    + unfold labels. apply in_map_iff. eexists (NDB_No, _). split; [reflexivity |].
      match goal with H : incl _ (columns d), H' : In (NDB_No, _) _ |- _ =>
        apply H, H' end.
    + apply Hfirst. auto.
    + apply Hfirst. auto.
  - unfold labels. simpl. apply incl_map.
    intros lc Hin. apply remove_cols_incl in Hin. auto.
  - unfold labels. simpl. apply incl_map.
    intros lc Hin. apply remove_cols_incl, remove_cols_incl in Hin.
    apply (iloc_drop_last_incl d 5). exact Hin.
Qed.

Lemma drop_correlated_needs d t r :
  drop_correlated d = (t, Ok r) -> forall n, In n correlated -> In n (labels d).
Proof.
  unfold drop_correlated, show. intros H. run_inv. subst.
  match goal with H : drop _ _ = Ok _ |- _ => apply drop_ok in H; apply H end.
Qed.

Lemma load_log fs :
  exists rest,
    fst (load fs)
    = Ev (read_csv_call csv_path csv_encoding)
         (raised_by (read_csv fs csv_path csv_encoding)) :: rest
    /\ Forall (fun ev => is_read_csv ev = false) rest.
Proof.
  unfold load.
  match goal with |- context [bind (perform ?c ?r) ?f] =>
    destruct (bind_cases (perform c r) f) as [(e & _ & E) | (a & _ & E)]; rewrite E
  end; simpl.
  - exists []. split; [reflexivity | constructor].
  - eexists. split; [reflexivity |]. unfold show. logged; reflexivity.
Qed.

(** C6. The CSV file is the one thing the notebook reads.  Every run starts
    with one call of [read_csv] on the fixed path with the encoding latin_1
    and makes no other; what the run does depends on the file system through
    the contents at that path only; and when the run returns, the file had
    every column the later cells address by name: [NDB_No], [FoodGroup],
    [Shrt_Desc], the three correlated nutrient columns
    [Folate_DFE_(µg)], [Vit_A_RAE], [Vit_D_IU], and the weight and refuse
    columns dropped from the table of results.  So a file that lacks one of
    them makes the run stop with an exception after the file is read. *)
Theorem C6_single_csv_interface (fs : FileSystem) :
  (exists rest,
      fst (notebook fs)
      = Ev (read_csv_call csv_path csv_encoding)
           (raised_by (read_csv fs csv_path csv_encoding)) :: rest
      /\ Forall (fun ev => is_read_csv ev = false) rest)
  /\ (forall fs', fs' csv_path = fs csv_path -> notebook fs' = notebook fs)
  /\ (forall ns, snd (notebook fs) = Ok ns ->
        exists d0, read_csv fs csv_path csv_encoding = Ok d0
                   /\ forall n, In n required_columns -> In n (labels d0))
  /\ (forall d0 n, read_csv fs csv_path csv_encoding = Ok d0 ->
        In n required_columns -> ~ In n (labels d0) ->
        exists e tr, notebook fs
                     = (Ev (read_csv_call csv_path csv_encoding) None :: tr, Error e)).
Proof.
  assert (Hlog : exists rest,
             fst (notebook fs)
             = Ev (read_csv_call csv_path csv_encoding)
                  (raised_by (read_csv fs csv_path csv_encoding)) :: rest
             /\ Forall (fun ev => is_read_csv ev = false) rest).
  { destruct (load_log fs) as (rest & E & Hrest). unfold notebook.
    match goal with |- context [bind (load fs) ?f] =>
      destruct (bind_cases (load fs) f) as [(e & _ & Eb) | (a & _ & Eb)]; rewrite Eb
    end; simpl.
    - exists rest. auto.
    - rewrite E. eexists. split; [reflexivity |].
      apply Forall_app. split; [exact Hrest |].
      unfold split_descriptive, drop_correlated, normalize, center,
        decompose, components_frame, interpret, component_series, top_food_groups,
        food_groups, boxcox_transform.
      logged; try reflexivity.
      apply Forall_boxcox_columns; intros; reflexivity. }
  assert (Hcols : forall ns, snd (notebook fs) = Ok ns ->
             exists d0, read_csv fs csv_path csv_encoding = Ok d0
                        /\ forall n, In n required_columns -> In n (labels d0)).
  { intros ns Hns. apply snd_ok in Hns.
    destruct (notebook_ok _ _ _ Hns)
      as (d0 & nutr0 & nutr1 & tf & t1 & t2 & t3 & t4 & t5 & t6 & t7 & t8 & t9
          & Hread & Hdf & H1 & H2 & H3 & Hadd & H4 & H5 & H6 & H7 & H8 & H9 & Htr).
    exists d0. split; [exact Hread |].
    destruct (split_needs _ _ _ _ H2) as (Hkey & Hdesc & Hnutr).
    rewrite Hdf, dropna_labels in Hkey, Hdesc, Hnutr.
    intros n Hn. unfold required_columns in Hn.
    apply in_app_or in Hn. destruct Hn as [Hn | Hn]; [apply Hkey, Hn |].
    apply in_app_or in Hn. destruct Hn as [Hn | Hn].
    - apply Hnutr. apply (drop_correlated_needs _ _ _ H3). exact Hn.
    - apply Hdesc. apply (components_frame_needs _ _ _ _ _ H8). exact Hn. }
  split; [exact Hlog |]. split; [| split; [exact Hcols |]].
  - intros fs' H. unfold notebook, load, read_csv. rewrite H. reflexivity.
  - intros d0 n Hread Hn Hmiss.
    destruct Hlog as (rest & E & _). rewrite Hread in E. simpl in E.
    destruct (notebook fs) as [tr r] eqn:Enb. simpl in *. subst tr.
    destruct r as [ns | e]; [| eauto].
    exfalso. destruct (Hcols ns eq_refl) as (d0' & Hread' & Hall).
    rewrite Hread in Hread'. inversion Hread'; subst d0'.
    apply Hmiss, Hall, Hn.
Qed.

End Csv.

(** On the demonstration disk the run returns, so the file has the columns. *)
Lemma C6_single_csv_interface_witness :
  exists ns d0,
    snd (@notebook Demo.lib Demo.disk) = Ok ns
    /\ @read_csv Demo.lib Demo.disk csv_path csv_encoding = Ok d0
    /\ forall n, In n required_columns -> In n (labels d0).
Proof.
  destruct (snd (@notebook Demo.lib Demo.disk)) as [ns |] eqn:E;
    [| vm_compute in E; discriminate].
  destruct (@C6_single_csv_interface Demo.lib Demo.disk) as (_ & _ & H & _).
  destruct (H ns E) as (d0 & Hread & Hall).
  exists ns, d0. auto.
Defined.

(** ** What reaches the Box-Cox transform *)

Lemma map_opt_Forall2 {A B : Type} (f : A -> option B) l l' :
  map_opt f l = Some l' -> Forall2 (fun a b => f a = Some b) l l'.
Proof.
  revert l'. induction l as [| a rest IH]; simpl; intros l' H.
  - inversion H. constructor.
  - destruct (f a) as [b |] eqn:E; [| discriminate].
    destruct (map_opt f rest) as [t |]; [| discriminate].
    inversion H; subst. constructor; [exact E | apply IH; reflexivity].
Qed.


(** *** The numbers of the column types *)






(** The largest [int64] plus 1 is the smallest. *)
Lemma add_value_int64_wraps :
  add_value 1 (Int 9223372036854775807) = Some (Int (-9223372036854775808)).
Proof. vm_compute. reflexivity. Qed.

(** From [2 ^ 53] on a float64 has no room for 1: [1e16 + 1] is [1e16]. *)
Lemma add_value_float64_absorbs :
  add_value 1 (Num 10000000000000000) = Some (Num 10000000000000000).
Proof. vm_compute. reflexivity. Qed.

(** A tie goes to the even neighbour; one tenth is not a float64; from
    [2 ^ 1024] on there is only infinity, and half of the smallest float64
    is 0. *)
Lemma round64_examples :
  round64 (9007199254740993 # 1) = Num 9007199254740992
  /\ round64 (9007199254740995 # 1) = Num 9007199254740996
  /\ round64 (1 # 10) = Num (3602879701896397 # 36028797018963968)
  /\ round64 (inject_Z (2 ^ 1024)) = Inf false
  /\ round64 (1 # 2 ^ 1075) = Num 0.
Proof. repeat split; vm_compute; reflexivity. Qed.








Section BoxcoxInputs.

Context {L : Library}.







End BoxcoxInputs.



(** ** Exceptions *)

Section Exceptions.

Context {L : Library}.











End Exceptions.



(** ** The Box-Cox loop *)

Lemma string_length_append (s t : string) :
  String.length (s ++ t) = String.length s + String.length t.
Proof.
  induction s as [| a s IH]; simpl; [reflexivity | rewrite IH; reflexivity].
Qed.

Lemma string_append_inj (s t u : string) : (s ++ u = t ++ u)%string -> s = t.
Proof.
  revert t. induction s as [| a s IH]; intros [| b t] H; simpl in H.
  - reflexivity.
  - exfalso. apply (f_equal String.length) in H. simpl in H.
    rewrite string_length_append in H. lia.
  - exfalso. apply (f_equal String.length) in H. simpl in H.
    rewrite string_length_append in H. lia.
  - inversion H; subst. f_equal. apply IH. assumption.
Qed.

Lemma TF_label_inj l l' :
  is_text l = true -> is_text l' = true -> TF_label l = TF_label l' -> l = l'.
Proof.
  destruct l, l'; simpl; try discriminate. intros _ _ H.
  inversion H as [E]. apply string_append_inj in E. congruence.
Qed.

Lemma TF_labels_NoDup ls :
  NoDup ls -> Forall (fun l => is_text l = true) ls -> NoDup (map TF_label ls).
Proof.
  induction 1 as [| l ls Hnot Hnd IH]; simpl; intros Htext; [constructor |].
  inversion Htext; subst. constructor; [| apply IH; assumption].
  intros Hin. apply in_map_iff in Hin. destruct Hin as (l' & E & Hl').
  match goal with H : Forall _ ls |- _ => rewrite Forall_forall in H; pose proof (H _ Hl') end.
  apply TF_label_inj in E; [subst; contradiction | assumption | assumption].
Qed.

Lemma assign_fresh name x cs :
  ~ In name (map fst cs) -> assign name x cs = cs ++ [(name, x)].
Proof.
  induction cs as [| lc rest IH]; simpl; intros Hn; [reflexivity |].
  destruct (label_eqb (fst lc) name) eqn:E.
  - apply label_eqb_eq in E. exfalso. auto.
  - rewrite IH; [reflexivity | auto].
Qed.

Section BoxcoxLoop.

Context {L : Library}.

(** What one pass of the loop over the columns [cs] of [d] adds to the table
    of transformed columns. *)
Lemma boxcox_columns_ok d cs tf0 tr tf :
  NoDup (labels d) -> incl cs (columns d) ->
  NoDup (map TF_label (map fst cs)) ->
  (forall l, In l (map fst cs) -> ~ In (TF_label l) (labels tf0)) ->
  boxcox_columns d (map fst cs) tf0 = (tr, Ok tf) ->
  index tf = index tf0
  /\ exists outs,
       columns tf = columns tf0 ++ outs
       /\ Forall2 (fun lc out =>
                     fst out = TF_label (fst lc)
                     /\ length (snd out) = nrows tf0
                     /\ exists lam, boxcox (snd lc) = Ok (snd out, lam))
                  cs outs.
Proof.
  intros Hnd. revert tf0 tr.
  induction cs as [| [l x] rest IH]; intros tf0 tr Hincl Hout Hfresh H; simpl in H.
  - run_inv. subst. split; [reflexivity |]. exists []. rewrite app_nil_r.
    split; [reflexivity | constructor].
  - run_inv. subst.
    match goal with H : getitem d l = Ok ?x' |- _ =>
      assert (Ex : x' = x);
      [ unfold getitem in H; rewrite (loc_unique d l x Hnd) in H;
        [inversion H; reflexivity | apply Hincl; left; reflexivity]
      | subst x' ]
    end.
    match goal with H : setitem tf0 _ _ = Ok ?t |- _ =>
      unfold setitem in H;
      destruct (length _ =? nrows tf0) eqn:Elen; [| discriminate];
      inversion H; subst t; clear H
    end.
    apply Nat.eqb_eq in Elen.
    fold (TF_label l) in *.
    rewrite assign_fresh in * by (apply Hfresh; left; reflexivity).
    simpl in Hout. inversion Hout as [| ? ? Hnot Hout']; subst.
    match goal with H : boxcox_columns _ _ _ = _ |- _ =>
      apply IH in H;
      [ destruct H as (Hidx & outs & Hcols & Hall)
      | intros lc Hlc; apply Hincl; right; exact Hlc
      | exact Hout'
      | ]
    end.
    + simpl in *. split; [exact Hidx |].
      match goal with H : boxcox x = Ok ?y |- _ =>
        exists ((TF_label l, fst y) :: outs); destruct y as [y lam]
      end.
      rewrite Hcols, <- app_assoc. simpl. split; [reflexivity |].
      constructor; [| eapply Forall2_impl; [| exact Hall]].
      * simpl. repeat split; [exact Elen | eauto].
      * simpl. intros a b H. exact H.
    + intros l' Hl'. unfold labels. simpl. rewrite map_app. simpl.
      intros Hin. apply in_app_or in Hin. destruct Hin as [Hin | [E | []]].
      * apply (Hfresh l'); [right; exact Hl' | exact Hin].
      * apply Hnot. rewrite E. apply in_map. exact Hl'.
Qed.

(** C8. The Box-Cox step works column by column.  For a table with distinct
    text labels (the header of a CSV file), when the loop returns, the table
    of transformed columns has the row labels of the input and, in the order
    of the input columns, exactly one column for each of them: the column
    [col] gives the column labelled [col_TF] whose cells are the first
    component of [boxcox] applied to the cells of [col] alone, one for each
    row; and the labels of the output are distinct. *)
Theorem C8_boxcox_per_column (nutr : DataFrame) (tr : list event) (tf : DataFrame) :
  NoDup (labels nutr) ->
  Forall (fun l => is_text l = true) (labels nutr) ->
  boxcox_transform nutr = (tr, Ok tf) ->
  index tf = index nutr
  /\ Forall2 (fun lc out =>
                fst out = LStr (format_label (fst lc) ++ "_TF")
                /\ length (snd out) = nrows nutr
                /\ exists lam, boxcox (snd lc) = Ok (snd out, lam))
             (columns nutr) (columns tf)
  /\ length (columns tf) = length (columns nutr)
  /\ NoDup (labels tf).
Proof.
  intros Hnd Htext H. unfold boxcox_transform, labels in H.
  pose proof (TF_labels_NoDup _ Hnd Htext) as Hout.
  apply boxcox_columns_ok in H; auto using incl_refl.
  destruct H as (Hidx & outs & Hcols & Hall). simpl in Hcols, Hidx. subst outs.
  split; [exact Hidx |]. split; [exact Hall |].
  split; [symmetry; apply (Forall2_length Hall) |].
  assert (E : labels tf = map TF_label (labels nutr)).
  { unfold labels. clear - Hall. induction Hall as [| lc out cs outs H _ IH]; simpl.
    - reflexivity.
    - destruct H as (E & _). rewrite E, IH. reflexivity. }
  rewrite E. exact Hout.
Qed.

End BoxcoxLoop.

(** On two columns of the demonstration table (1 added): the loop returns the
    two transformed columns. *)
Lemma C8_boxcox_per_column_witness :
  exists tr tf,
    @boxcox_transform Demo.lib
      (mkFrame [Num 1001; Num 1003]
               [(LStr "Nutr_7", [Num 1; Num (7 # 2)]); (LStr "Nutr_8", [Num 4; Num 1])])
    = (tr, Ok tf)
    /\ index tf = [Num 1001; Num 1003]
    /\ labels tf = [LStr "Nutr_7_TF"; LStr "Nutr_8_TF"].
Proof.
  set (nutr := mkFrame [Num 1001; Num 1003]
                 [(LStr "Nutr_7", [Num 1; Num (7 # 2)]); (LStr "Nutr_8", [Num 4; Num 1])]).
  destruct (@boxcox_transform Demo.lib nutr) as [tr [tf | e]] eqn:E;
    [| vm_compute in E; discriminate].
  exists tr, tf. split; [reflexivity |].
  assert (Hnd : NoDup (labels nutr)).
  { simpl. repeat (constructor; [simpl; intuition discriminate |]). constructor. }
  assert (Htext : Forall (fun l => is_text l = true) (labels nutr)).
  { simpl. repeat constructor. }
  destruct (@C8_boxcox_per_column Demo.lib nutr tr tf Hnd Htext E) as (Hidx & Hall & _).
  split; [exact Hidx |].
  unfold labels. simpl in Hall.
  inversion Hall as [| ? o1 ? outs1 (E1 & _) Hall1]; subst.
  inversion Hall1 as [| ? o2 ? outs2 (E2 & _) Hall2]; subst.
  inversion Hall2; subst. simpl. rewrite E1, E2. reflexivity.
Defined.

(** ** The join with the descriptive columns *)

Lemma take_seq c : take (seq 0 (length c)) c = c.
Proof.
  unfold take. apply nth_ext with (d := NaN) (d' := NaN).
  - rewrite length_map, length_seq. reflexivity.
  - rewrite length_map, length_seq. intros n Hn.
    rewrite (nth_indep _ NaN (nth 0 c NaN)) by (rewrite length_map, length_seq; exact Hn).
    rewrite (map_nth (fun i => nth i c NaN)). rewrite seq_nth by exact Hn. reflexivity.
Qed.

Lemma take_all_nan pos n : take pos (repeat NaN n) = repeat NaN (length pos).
Proof.
  unfold take. induction pos as [| i rest IH]; simpl; [reflexivity |].
  rewrite nth_repeat, IH. reflexivity.
Qed.

Lemma filter_none {A : Type} (f : A -> bool) (l : list A) :
  (forall x, In x l -> f x = false) -> filter f l = [].
Proof.
  induction l as [| a rest IH]; simpl; intros H; [reflexivity |].
  rewrite (H a) by auto. apply IH. auto.
Qed.

Lemma matches_none ri l :
  (forall y, In y ri -> value_eqb l y = false) -> matches ri l = [].
Proof.
  intros H. unfold matches. apply filter_none.
  intros j Hj. apply in_seq in Hj. apply H. apply nth_In. lia.
Qed.

(** Without a common row label the join pairs every left row with nothing. *)
Lemma join_plan_disjoint li ri :
  disjoint_labels li ri ->
  join_plan li ri = map (fun i => (i, None)) (seq 0 (length li)).
Proof.
  intros H. unfold join_plan.
  assert (Hall : forall i, In i (seq 0 (length li)) -> i < length li)
    by (intros i Hi; apply in_seq in Hi; lia).
  induction (seq 0 (length li)) as [| i rest IH]; [reflexivity |].
  assert (Ec : forall (f : nat -> list (nat * option nat)),
             flat_map f (i :: rest) = f i ++ flat_map f rest) by reflexivity.
  rewrite Ec, matches_none.
  - rewrite IH; [reflexivity | auto with datatypes].
  - intros y Hy. apply H; [| exact Hy]. apply nth_In. apply Hall. left. reflexivity.
Qed.

Lemma take_opt_none (l : list nat) c :
  take_opt (map snd (map (fun i => (i, @None nat)) l)) c = repeat NaN (length l).
Proof.
  unfold take_opt. induction l as [| i rest IH]; simpl; [reflexivity |].
  rewrite IH. reflexivity.
Qed.

Lemma map_joined_nan plan n : map (joined plan) (repeat NaN n) = repeat NaN n.
Proof.
  unfold joined. destruct (unpaired plan); [| apply map_id].
  induction n as [| n IH]; simpl; [reflexivity | rewrite IH; reflexivity].
Qed.

Lemma join_disjoint l r j :
  join l r = Ok j -> disjoint_labels (index l) (index r) ->
  index j = index l
  /\ columns j
     = map (fun lc => (fst lc, take (seq 0 (nrows l)) (snd lc))) (columns l)
       ++ map (fun lc => (fst lc, repeat NaN (nrows l))) (columns r).
Proof.
  unfold join. destruct (existsb _ (labels l)); [discriminate |].
  intros H Hdis. inversion H; subst. simpl.
  rewrite (join_plan_disjoint _ _ Hdis), !map_map. simpl. rewrite map_id.
  split; [apply take_seq |]. f_equal.
  apply map_ext. intros lc. f_equal.
  rewrite <- (map_map (fun i => (i, @None nat)) snd), take_opt_none, length_seq.
  apply map_joined_nan.
Qed.

Lemma tally_all_nan n : tally (repeat NaN n) = [].
Proof.
  unfold tally. induction n as [| n IH]; simpl; [reflexivity | exact IH].
Qed.

Lemma value_counts_all_nan n : value_counts (repeat NaN n) = [].
Proof. unfold value_counts. rewrite tally_all_nan. reflexivity. Qed.

Lemma loc_take_rows pos d name :
  loc (take_rows pos d) name = option_map (take pos) (loc d name).
Proof.
  unfold loc, take_rows. simpl.
  induction (columns d) as [| lc rest IH]; simpl; [reflexivity |].
  destruct (label_eqb (fst lc) name); [reflexivity | exact IH].
Qed.

Lemma rename_label_cases l :
  rename_label component_names l = l \/ In (rename_label component_names l) (map snd component_names).
Proof.
  unfold rename_label.
  destruct (find _ component_names) as [kv |] eqn:E; [right | left; reflexivity].
  apply find_some in E. apply in_map. apply E.
Qed.

Lemma firstn_all_nan k n : firstn k (repeat NaN n) = repeat NaN (Nat.min k n).
Proof.
  revert n. induction k as [| k IH]; intros [| n]; simpl; try reflexivity.
  rewrite IH. reflexivity.
Qed.

Lemma loc_in d name : In name (labels d) -> exists c, loc d name = Some c.
Proof.
  intros Hin. destruct (loc d name) as [c |] eqn:E; [eauto |].
  apply loc_none in E. contradiction.
Qed.

(** The columns of the table of the first five components are renamed to
    [c1] ... [c5]. *)
Lemma frame_labels_renamed a idx d :
  frame_of_array (first_columns a 5) idx = Ok d ->
  index d = idx
  /\ forall l, In l (labels d) ->
       In (rename_label component_names l) (map snd component_names).
Proof.
  assert (Hlen : length (acols (first_columns a 5)) <= 5)
    by (unfold first_columns; cbn [acols]; apply firstn_le_length).
  remember (first_columns a 5) as a5 eqn:Ea5. clear Ea5.
  unfold frame_of_array. destruct (shape0 _ =? length idx); [| discriminate].
  intros H. injection H as Hd. subst d. split; [reflexivity |].
  unfold labels. cbn [columns]. intros l Hl. apply in_map_iff in Hl.
  destruct Hl as ((l' & c) & E & Hin). cbn [fst] in E. subst l'.
  apply in_combine_l in Hin. apply in_map_iff in Hin.
  destruct Hin as (j & E & Hj). subst l. apply in_seq in Hj.
  assert (Hj5 : j < 5) by lia.
  do 5 (destruct j as [| j]; [simpl; tauto |]). lia.
Qed.

Section Join.

Context {L : Library}.

(** The table of results, taken apart. *)
Lemma components_frame_ok a d desc t r :
  components_frame a d desc = (t, Ok r) ->
  exists scores joined,
    frame_of_array (first_columns a 5) (index d) = Ok scores
    /\ join scores desc = Ok joined
    /\ r = rename (mkFrame (index joined) (remove_cols desc_dropped (columns joined)))
                  component_names.
Proof.
  unfold components_frame, show. intros H. run_inv. subst.
  match goal with H : drop _ _ = Ok _ |- _ => apply drop_ok in H; destruct H as [_ H] end.
  subst. eauto.
Qed.

(** C9. The table of the five components is labelled by the row labels of
    [df], the descriptive table by the values of [NDB_No], and the join
    matches the one against the other.  When the two have no label in common,
    the join keeps the rows of the components and every descriptive column it
    adds is missing in every row; so in the table of results every column
    other than [c1] ... [c5], [FoodGroup] among them, is all missing, and
    [sort_values(by=...)['FoodGroup'][:500].value_counts()] can only return
    the empty count, and does return it when the sort column and [FoodGroup]
    are there (and the display of an empty count does not raise). *)
Theorem C9_disjoint_labels_no_food_group
        (pca : ndarray) (df desc_df : DataFrame) (tr : list event) (pca_df : DataFrame) :
  components_frame pca df desc_df = (tr, Ok pca_df) ->
  disjoint_labels (index df) (index desc_df) ->
  (exists scores joined,
      frame_of_array (first_columns pca 5) (index df) = Ok scores
      /\ join scores desc_df = Ok joined
      /\ index joined = index df
      /\ forall l c, In (l, c) (columns joined) -> In l (labels desc_df) ->
                     c = repeat NaN (nrows df))
  /\ (forall l c, In (l, c) (columns pca_df) -> ~ In l (map snd component_names) ->
                  c = repeat NaN (nrows df))
  /\ (forall by_ counts, snd (top_food_groups pca_df by_) = Ok counts -> counts = [])
  /\ (forall by_, In by_ (labels pca_df) -> In FoodGroup (labels pca_df) ->
                  display (value_counts_call []) = Ok tt ->
                  snd (top_food_groups pca_df by_) = Ok []).
Proof.
  intros H Hdis.
  destruct (components_frame_ok _ _ _ _ _ H) as (scores & joined & Hframe & Hjoin & Hr).
  destruct (frame_labels_renamed _ _ _ Hframe) as [Hidx Hren].
  destruct (join_ok _ _ _ Hjoin) as [_ Hsep].
  rewrite <- Hidx in Hdis.
  destruct (join_disjoint _ _ _ Hjoin Hdis) as [Hji Hjc].
  assert (Hn : nrows scores = nrows df) by (unfold nrows; rewrite Hidx; reflexivity).
  rewrite Hn in Hjc.
  assert (Hjoined : forall l c, In (l, c) (columns joined) ->
            In l (labels scores) \/ c = repeat NaN (nrows df)).
  { intros l c Hin. rewrite Hjc in Hin. apply in_app_or in Hin.
    destruct Hin as [Hin | Hin]; apply in_map_iff in Hin;
      destruct Hin as (lc & E & Hlc); inversion E; subst.
    - left. unfold labels. apply in_map. exact Hlc.
    - right. reflexivity. }
  assert (Hres : forall l c, In (l, c) (columns pca_df) ->
            ~ In l (map snd component_names) -> c = repeat NaN (nrows df)).
  { intros l c Hin Hl. subst pca_df. simpl in Hin. apply in_map_iff in Hin.
    destruct Hin as (lc & E & Hlc). inversion E; subst. clear E.
    apply remove_cols_incl in Hlc. destruct lc as [l0 c0]. simpl in *.
    destruct (Hjoined _ _ Hlc) as [Hs | Hc]; [| exact Hc].
    exfalso. apply Hl. apply Hren. exact Hs. }
  clear Hr.
  assert (Hfg : ~ In FoodGroup (map snd component_names)).
  { simpl. intuition discriminate. }
  assert (Hgroups : forall pos groups,
            getitem (take_rows pos pca_df) FoodGroup = Ok groups ->
            value_counts (firstn 500 groups) = []).
  { intros pos groups Hg. unfold getitem in Hg. rewrite loc_take_rows in Hg.
    destruct (loc pca_df FoodGroup) as [c |] eqn:E; simpl in Hg; [| discriminate].
    inversion Hg; subst. apply loc_some in E. apply Hres in E; [| exact Hfg].
    subst c. rewrite take_all_nan, firstn_all_nan. apply value_counts_all_nan. }
  split; [| split; [exact Hres | split]].
  - exists scores, joined. repeat split; try assumption.
    + rewrite Hji. exact Hidx.
    + intros l c Hin Hl. destruct (Hjoined _ _ Hin) as [Hs | Hc]; [| exact Hc].
      exfalso. apply (Hsep l); assumption.
  - intros by_ counts Hc. apply snd_ok in Hc. unfold top_food_groups, show in Hc.
    run_inv. subst.
    match goal with H : sort_values _ _ = Ok _ |- _ =>
      unfold sort_values in H; destruct (loc pca_df by_); [| discriminate];
      inversion H; subst end.
    match goal with H : getitem _ _ = Ok _ |- _ => apply Hgroups in H; exact H end.
  - intros by_ Hby Hfood Hshow. unfold top_food_groups, sort_values.
    destruct (loc_in _ _ Hby) as (key & Ek). rewrite Ek.
    destruct (loc_in _ _ Hfood) as (c & Ec).
    assert (Eg : getitem (take_rows (argsort key) pca_df) FoodGroup
                 = Ok (take (argsort key) c)).
    { unfold getitem. rewrite loc_take_rows, Ec. reflexivity. }
    rewrite (snd_bind_perform _ _ (take_rows (argsort key) pca_df)) by reflexivity.
    rewrite (snd_bind_perform _ _ _ _ Eg), (Hgroups _ _ Eg). unfold show.
    rewrite (snd_bind_perform _ _ _ _ Hshow). reflexivity.
Qed.

End Join.

(** In the run on the demonstration disk the rows are labelled 0 and 2 and
    the descriptive table 1001 and 1003: the food group is missing throughout
    and the count for [c1] is empty. *)
Lemma C9_disjoint_labels_no_food_group_witness :
  exists ns,
    snd (@notebook Demo.lib Demo.disk) = Ok ns
    /\ disjoint_labels (index (df ns)) (index (desc_df ns))
    /\ snd (@top_food_groups Demo.lib (pca_df ns) (LStr "c1")) = Ok [].
Proof.
  destruct (@notebook Demo.lib Demo.disk) as [tr [ns | e]] eqn:E;
    [| vm_compute in E; discriminate].
  exists ns. split; [reflexivity |].
  destruct (notebook_ok _ _ _ E)
    as (d0 & nutr0 & nutr1 & tf & t1 & t2 & t3 & t4 & t5 & t6 & t7 & t8 & t9
        & Hread & Hdf & H1 & H2 & H3 & Hadd & H4 & H5 & H6 & H7 & H8 & H9 & Htr).
  assert (Hfacts : index (df ns) = [Num 0; Num 2]
                   /\ index (desc_df ns) = [Num 1001; Num 1003]
                   /\ labels (pca_df ns)
                      = [LStr "c1"; LStr "c2"; LStr "c3"; LStr "c4"; LStr "c5"; FoodGroup]).
  { assert (Hc : match snd (@notebook Demo.lib Demo.disk) with
                 | Ok n => index (df n) = [Num 0; Num 2]
                           /\ index (desc_df n) = [Num 1001; Num 1003]
                           /\ labels (pca_df n)
                              = [LStr "c1"; LStr "c2"; LStr "c3"; LStr "c4"; LStr "c5";
                                 FoodGroup]
                 | Error _ => True
                 end) by (vm_compute; auto).
    rewrite E in Hc. exact Hc. }
  destruct Hfacts as (Ei & Ed & El).
  assert (Hdis : disjoint_labels (index (df ns)) (index (desc_df ns))).
  { rewrite Ei, Ed. intros x y Hx Hy. simpl in Hx, Hy.
    destruct Hx as [Hx | [Hx | []]], Hy as [Hy | [Hy | []]]; subst; reflexivity. }
  split; [exact Hdis |].
  destruct (@C9_disjoint_labels_no_food_group Demo.lib _ _ _ _ _ H8 Hdis)
    as (_ & _ & _ & Hcount).
  apply Hcount.
  - rewrite El. simpl. auto.
  - rewrite El. simpl. auto 10.
  - reflexivity.
Defined.

(** ** Further properties: loading *)

Lemma map_nth_seq {A : Type} (f : nat -> A) (pos : list nat) :
  map (fun i => f (nth i pos 0)) (seq 0 (length pos)) = map f pos.
Proof.
  induction pos as [| p rest IH]; simpl; [reflexivity |].
  f_equal. rewrite <- seq_shift, map_map. exact IH.
Qed.

Lemma nth_take pos c i :
  i < length pos -> nth i (take pos c) NaN = nth (nth i pos 0) c NaN.
Proof.
  intros Hi. unfold take.
  rewrite (nth_indep _ NaN (nth 0 c NaN)) by (rewrite length_map; exact Hi).
  apply (map_nth (fun i => nth i c NaN)).
Qed.

(** The rows of a selection of rows are the selected rows. *)
Lemma rows_take_rows pos d : rows (take_rows pos d) = map (row d) pos.
Proof.
  unfold rows, nrows. cbn [index take_rows]. rewrite take_length.
  rewrite <- (map_nth_seq (row d) pos). apply map_ext_in.
  intros i Hi. apply in_seq in Hi. unfold row. cbn [index columns take_rows].
  rewrite nth_take by lia. f_equal. rewrite map_map. apply map_ext.
  intros lc. cbn [snd]. apply nth_take. lia.
Qed.

Lemma row_has_nan_row d i : row_has_nan d i = existsb isnan (snd (row d i)).
Proof.
  unfold row_has_nan, row. cbn [snd].
  induction (columns d) as [| lc rest IH]; simpl; [reflexivity |].
  rewrite IH. reflexivity.
Qed.

Lemma filter_map_comm {A B : Type} (f : A -> B) (p : B -> bool) (l : list A) :
  filter p (map f l) = map f (filter (fun a => p (f a)) l).
Proof.
  induction l as [| a rest IH]; simpl; [reflexivity |].
  destruct (p (f a)); simpl; rewrite IH; reflexivity.
Qed.

(** [dropna] keeps, in order, exactly the rows without a missing cell. *)
Lemma rows_dropna d :
  rows (dropna d) = filter (fun r => negb (existsb isnan (snd r))) (rows d).
Proof.
  unfold dropna. rewrite rows_take_rows. unfold rows. rewrite filter_map_comm.
  f_equal. apply filter_ext. intros i. rewrite row_has_nan_row. reflexivity.
Qed.

Lemma filter_all {A : Type} (f : A -> bool) (l : list A) :
  (forall x, In x l -> f x = true) -> filter f l = l.
Proof.
  induction l as [| a rest IH]; simpl; intros H; [reflexivity |].
  rewrite (H a) by auto. f_equal. apply IH. auto.
Qed.

Lemma take_rows_all d : rectangular d -> take_rows (seq 0 (nrows d)) d = d.
Proof.
  unfold rectangular, take_rows, nrows. intros Hrect. destruct d as [idx cols].
  cbn [index columns] in *. f_equal; [apply take_seq |].
  rewrite <- (map_id cols) at 2. apply map_ext_in. intros [l c] Hin.
  rewrite Forall_forall in Hrect. specialize (Hrect _ Hin). cbn [fst snd] in *.
  rewrite <- Hrect. rewrite take_seq. reflexivity.
Qed.

Section Loading.

Context {L : Library}.

(** X1. What [load] leaves in [df] (read the CSV, [df = df.dropna()]): the
    columns of the file under the same labels, and of its rows exactly those
    without a missing cell, in the order of the file and under their row
    labels; so no cell of [df] is missing, every column has one cell for each
    row, and there are at most as many rows as in the file. *)
Theorem X1_load_keeps_complete_rows (fs : FileSystem) (t : list event) (df : DataFrame) :
  load fs = (t, Ok df) ->
  exists d0,
    read_csv fs csv_path csv_encoding = Ok d0
    /\ labels df = labels d0
    /\ rows df = filter (fun r => negb (existsb isnan (snd r))) (rows d0)
    /\ (forall v, In v (cells df) -> isnan v = false)
    /\ rectangular df
    /\ nrows df <= nrows d0.
Proof.
  unfold load, show. intros H. run_inv. subst.
  eexists. split; [eassumption |].
  split; [apply dropna_labels |]. split; [apply rows_dropna |].
  split; [apply dropna_no_nan |]. split; [apply dropna_rectangular |].
  unfold dropna, take_rows, nrows. cbn [index]. rewrite take_length.
  match goal with |- length (filter ?f ?l) <= _ =>
    pose proof (filter_length_le f l) as Hle end.
  rewrite length_seq in Hle. exact Hle.
Qed.

End Loading.

(** On the demonstration disk: of the three rows of the file the second has
    a missing cell; the rows labelled 0 and 2 stay. *)
Lemma X1_load_keeps_complete_rows_witness :
  exists t df,
    @load Demo.lib Demo.disk = (t, Ok df)
    /\ map fst (rows df) = [Num 0; Num 2]
    /\ nrows df <= 3.
Proof.
  destruct (@load Demo.lib Demo.disk) as [t [df | e]] eqn:E;
    [| vm_compute in E; discriminate].
  exists t, df. split; [reflexivity |].
  destruct (@X1_load_keeps_complete_rows Demo.lib Demo.disk t df E)
    as (d0 & Hread & _ & Hrows & _ & _ & Hle).
  assert (Ed : Ok d0 = Ok Demo.table) by (rewrite <- Hread; reflexivity).
  injection Ed as Ed. subst d0. split; [rewrite Hrows; vm_compute; reflexivity | exact Hle].
Defined.

(** X2. Dropping the incomplete rows again changes nothing: running the cell
    [df = df.dropna()] a second time leaves [df] as it is. *)
Theorem X2_dropna_idempotent (d : DataFrame) : dropna (dropna d) = dropna d.
Proof.
  set (d' := dropna d). unfold dropna at 1.
  rewrite filter_all.
  - apply take_rows_all. apply dropna_rectangular.
  - intros i Hi. apply negb_true_iff. unfold row_has_nan.
    destruct (existsb _ (columns d')) eqn:E; [| reflexivity].
    apply existsb_exists in E. destruct E as (lc & Hlc & Hnan).
    apply in_seq in Hi.
    assert (Hlen : length (snd lc) = nrows d').
    { pose proof (dropna_rectangular d) as Hr. rewrite Forall_forall in Hr.
      apply Hr, Hlc. }
    assert (Hcell : In (nth i (snd lc) NaN) (cells d')).
    { unfold cells. apply in_flat_map. exists lc. split; [exact Hlc |].
      apply nth_In. lia. }
    apply dropna_no_nan in Hcell. congruence.
Qed.

(** ** Further properties: the split *)

Section SplitBounds.

Context {L : Library}.

(** X3. [desc_df = df.iloc[:, [0, 1, 2]+[i for i in range(50,54)]]] addresses
    the columns by position up to 53.  On a table with fewer than 54 columns
    the split stops at this first call with pandas' IndexError and nothing
    else of it runs; with 54 columns or more the call returns the seven
    columns under the row labels of [df]. *)
Theorem X3_split_needs_54_columns (df : DataFrame) :
  (length (columns df) < 54 ->
   split_descriptive df
   = ([Ev (iloc_call df desc_positions)
          (Some (Exn "IndexError" "positional indexers are out-of-bounds"))],
      Error (Exn "IndexError" "positional indexers are out-of-bounds")))
  /\ (54 <= length (columns df) ->
      exists desc0,
        iloc_cols df desc_positions = Ok desc0
        /\ index desc0 = index df
        /\ map Some (columns desc0)
           = map (nth_error (columns df)) [0; 1; 2; 50; 51; 52; 53]).
Proof.
  split.
  - intros Hlen. unfold split_descriptive.
    assert (E : iloc_cols df desc_positions
                = Error (Exn "IndexError" "positional indexers are out-of-bounds")).
    { unfold iloc_cols.
      destruct (pick (columns df) desc_positions) as [cs |] eqn:Ep; [| reflexivity].
      exfalso. assert (Hn : pick (columns df) desc_positions = None).
      { apply pick_none. exists 53. split; [simpl; auto 10 | lia]. }
      congruence. }
    rewrite E. reflexivity.
  - intros Hlen. unfold iloc_cols.
    destruct (pick (columns df) desc_positions) as [cs |] eqn:Ep.
    + eexists. split; [reflexivity |]. split; [reflexivity |].
      apply (pick_nth _ _ _ Ep).
    + exfalso. apply pick_none in Ep. destruct Ep as (i & Hi & Hle).
      simpl in Hi. intuition lia.
Qed.

End SplitBounds.

(** A table of three columns is too narrow; the demonstration table is wide
    enough. *)
Lemma X3_split_needs_54_columns_witness :
  snd (@split_descriptive Demo.lib
         (mkFrame [Num 0] [(NDB_No, [Num 1001]); (FoodGroup, [Str "Dairy"]);
                           (Shrt_Desc, [Str "BUTTER"])]))
  = Error (Exn "IndexError" "positional indexers are out-of-bounds")
  /\ exists desc0, iloc_cols Demo.table desc_positions = Ok desc0
                   /\ index desc0 = index Demo.table.
Proof.
  split.
  - destruct (@X3_split_needs_54_columns Demo.lib
                (mkFrame [Num 0] [(NDB_No, [Num 1001]); (FoodGroup, [Str "Dairy"]);
                                  (Shrt_Desc, [Str "BUTTER"])])) as [H _].
    rewrite H; [reflexivity | simpl; lia].
  - destruct (@X3_split_needs_54_columns Demo.lib Demo.table) as [_ H].
    assert (Hlen : 54 <= length (columns Demo.table))
      by (apply Nat.leb_le; vm_compute; reflexivity).
    destruct (H Hlen) as (desc0 & E & Hi & _). eauto.
Defined.

(** ** Further properties: which columns are transformed *)

(** Adding a number keeps the row labels and the column labels. *)
Lemma add_scalar_ok (d : DataFrame) (k : Z) d' :
  add_scalar d k = Ok d' -> index d' = index d /\ labels d' = labels d.
Proof.
  unfold add_scalar.
  destruct (map_opt _ (columns d)) as [cs |] eqn:E; [| discriminate].
  intros H. injection H as H. subst d'. cbn [index columns].
  split; [reflexivity |].
  apply map_opt_Forall2 in E. unfold labels. cbn [columns].
  induction E as [| lc lc' l l' Hlc _ IH]; simpl; [reflexivity |].
  destruct (map_opt (add_value k) (snd lc)) as [c' |]; [| discriminate].
  simpl in Hlc. injection Hlc as Hlc. subst lc'. simpl. rewrite IH. reflexivity.
Qed.

Lemma remove_cols_labels_filter names cs :
  map fst (remove_cols names cs)
  = filter (fun l => negb (existsb (label_eqb l) names)) (map fst cs).
Proof.
  unfold remove_cols. induction cs as [| lc rest IH]; simpl; [reflexivity |].
  destruct (existsb (label_eqb (fst lc)) names); simpl; rewrite IH; reflexivity.
Qed.

Lemma filter_filter {A : Type} (p q : A -> bool) (l : list A) :
  filter p (filter q l) = filter (fun x => q x && p x) l.
Proof.
  induction l as [| a rest IH]; simpl; [reflexivity |].
  destruct (q a); simpl; [destruct (p a); rewrite IH; reflexivity | exact IH].
Qed.

Lemma filter_out_one (n : label) (l : list label) :
  NoDup l -> In n l ->
  length (filter (fun x => negb (label_eqb x n)) l) + 1 = length l.
Proof.
  induction l as [| a rest IH]; simpl; [tauto |].
  intros Hnd Hin. inversion Hnd as [| ? ? Hnot Hrest]; subst.
  destruct (label_eqb a n) eqn:E; simpl.
  - apply label_eqb_eq in E. subst a.
    rewrite filter_all; [lia |].
    intros x Hx. apply negb_true_iff. destruct (label_eqb x n) eqn:Ex; [| reflexivity].
    apply label_eqb_eq in Ex. subst x. contradiction.
  - destruct Hin as [Hin | Hin]; [subst; rewrite label_eqb_refl in E; discriminate |].
    rewrite <- (IH Hrest Hin). lia.
Qed.

Lemma filter_NoDup {A : Type} (p : A -> bool) (l : list A) : NoDup l -> NoDup (filter p l).
Proof.
  induction 1 as [| a rest Hnot Hnd IH]; simpl; [constructor |].
  destruct (p a); [| exact IH]. constructor; [| exact IH].
  intros Hin. apply filter_In in Hin. apply Hnot, Hin.
Qed.

(** Leaving out distinct labels that are all there shortens the list by
    their number. *)
Lemma filter_out_names (names l : list label) :
  NoDup l -> NoDup names -> incl names l ->
  length (filter (fun x => negb (existsb (label_eqb x) names)) l) + length names
  = length l.
Proof.
  intros Hl. induction names as [| n names IH]; intros Hn Hincl; simpl.
  - rewrite filter_all; [lia | reflexivity].
  - inversion Hn as [| ? ? Hnot Hrest]; subst.
    assert (E : filter (fun x => negb (label_eqb x n || existsb (label_eqb x) names)) l
                = filter (fun x => negb (label_eqb x n))
                         (filter (fun x => negb (existsb (label_eqb x) names)) l)).
    { rewrite filter_filter. apply filter_ext. intros x.
      rewrite negb_orb. apply andb_comm. }
    rewrite E.
    assert (Hin : In n (filter (fun x => negb (existsb (label_eqb x) names)) l)).
    { apply filter_In. split; [apply Hincl; left; reflexivity |].
      apply negb_true_iff. destruct (existsb (label_eqb n) names) eqn:Ex; [| reflexivity].
      apply existsb_label_eqb in Ex. contradiction. }
    pose proof (filter_out_one n _ (filter_NoDup _ _ Hl) Hin) as H1.
    assert (H2 : incl names l) by (intros x Hx; apply Hincl; right; exact Hx).
    specialize (IH Hrest H2). lia.
Qed.

Lemma firstn_NoDup {A : Type} n (l : list A) : NoDup l -> NoDup (firstn n l).
Proof.
  intros H. rewrite <- (firstn_skipn n l) in H. apply NoDup_app_remove_r in H. exact H.
Qed.

Section Transformed.

Context {L : Library}.

(** The split, taken apart. *)
Lemma split_descriptive_ok d t desc nutr :
  split_descriptive d = (t, Ok (desc, nutr)) ->
  exists picked ndb1 ndb2,
    map Some picked = map (nth_error (columns d)) desc_positions
    /\ incl picked (columns d)
    /\ In (NDB_No, ndb1) picked
    /\ desc = mkFrame ndb1 (remove_cols [NDB_No] picked)
    /\ (forall n, In n [FoodGroup; Shrt_Desc] ->
          In n (map fst (firstn (length (columns d) - 5) (columns d))))
    /\ In (NDB_No, ndb2)
          (remove_cols [FoodGroup; Shrt_Desc] (firstn (length (columns d) - 5) (columns d)))
    /\ nutr = mkFrame ndb2
                (remove_cols [NDB_No]
                   (remove_cols [FoodGroup; Shrt_Desc]
                      (firstn (length (columns d) - 5) (columns d)))).
Proof.
  unfold split_descriptive, show. intros H. run_inv. subst.
  repeat match goal with
         | H : iloc_cols _ _ = Ok _ |- _ => apply iloc_cols_ok in H; destruct H as (? & ? & ?)
         | H : set_index _ _ = Ok _ |- _ => apply set_index_ok in H; destruct H as (? & ? & ?)
         | H : drop _ _ = Ok _ |- _ => apply drop_ok in H; destruct H as (? & ?)
         end.
  subst. simpl in *. do 3 eexists. repeat split; eauto.
Qed.

Lemma picked_needs_54 {A : Type} (l picked : list A) :
  map Some picked = map (nth_error l) desc_positions -> 54 <= length l.
Proof.
  intros H. destruct (Nat.le_gt_cases 54 (length l)) as [Hok | Hlt]; [exact Hok |].
  exfalso.
  assert (Hnone : nth_error l 53 = None) by (apply nth_error_None; lia).
  assert (Hin : In (@None A) (map (nth_error l) desc_positions)).
  { apply in_map_iff. exists 53. split; [exact Hnone | simpl; auto 10]. }
  rewrite <- H in Hin. apply in_map_iff in Hin. destruct Hin as (? & Hx & _).
  discriminate.
Qed.

(** X5. Which columns reach the transform.  From a table [df] with distinct
    text labels, when the split, the drop of the correlated columns and the
    normalization return: the columns of [nutr_df] are, in the order of the
    file, those of [df] other than its last five and other than [FoodGroup],
    [Shrt_Desc], [NDB_No] and the three correlated ones, which is eleven
    fewer than [df] has; the transformed table has one column [col_TF] for
    each, in the same order; and it is labelled, like [desc_df], by the
    identifiers. *)
Theorem X5_transformed_columns
        (df desc nutr0 nutr1 nutr tf : DataFrame) (t1 t2 t3 : list event) :
  NoDup (labels df) ->
  Forall (fun l => is_text l = true) (labels df) ->
  split_descriptive df = (t1, Ok (desc, nutr0)) ->
  drop_correlated nutr0 = (t2, Ok nutr1) ->
  normalize nutr1 = (t3, Ok (nutr, tf)) ->
  labels nutr
  = filter (fun l => negb (existsb (label_eqb l)
                                   ([FoodGroup; Shrt_Desc; NDB_No] ++ correlated)))
           (firstn (length (labels df) - 5) (labels df))
  /\ length (labels nutr) + 11 = length (labels df)
  /\ labels tf = map TF_label (labels nutr)
  /\ index tf = index nutr
  /\ index nutr = index desc.
Proof.
  intros Hnd Htext Hsplit Hcorr Hnorm.
  destruct (split_descriptive_ok _ _ _ _ Hsplit)
    as (picked & ndb1 & ndb2 & Hpick & Hincl & Hndb1 & Edesc & Hfs & Hndb2 & Enutr0).
  set (first := firstn (length (columns df) - 5) (columns df)) in *.
  unfold drop_correlated, show in Hcorr. run_inv.
  match goal with H : drop _ correlated = Ok _ |- _ =>
    apply drop_ok in H; destruct H as (Hcorr_in & Enutr1) end.
  unfold normalize, show in Hnorm. run_inv.
  match goal with H : add_scalar _ _ = Ok _ |- _ =>
    apply add_scalar_ok in H; destruct H as (Hai & Hal) end.
  match goal with H : boxcox_transform _ = _ |- _ => rename H into Hloop end.
  subst. cbn [index columns] in *.
  assert (Efirst : map fst first = firstn (length (labels df) - 5) (labels df)).
  { unfold first, labels. rewrite length_map, firstn_map. reflexivity. }
  (* the key *)
  assert (Eab : ndb1 = ndb2).
  { apply (NoDup_fst_eq (columns df) NDB_No); [exact Hnd | apply Hincl, Hndb1 |].
    apply (firstn_incl (length (columns df) - 5)),
      (remove_cols_incl [FoodGroup; Shrt_Desc]), Hndb2. }
  (* the labels *)
  assert (Elab : labels nutr
                 = filter (fun l => negb (existsb (label_eqb l)
                                     ([FoodGroup; Shrt_Desc; NDB_No] ++ correlated)))
                          (firstn (length (labels df) - 5) (labels df))).
  { rewrite Hal. unfold labels at 1. cbn [columns].
    rewrite !remove_cols_labels_filter, !filter_filter, Efirst. apply filter_ext.
    intros l. simpl. rewrite !orb_false_r, !negb_orb.
    destruct (label_eqb l FoodGroup), (label_eqb l Shrt_Desc), (label_eqb l NDB_No);
      reflexivity. }
  assert (Hnd_first : NoDup (firstn (length (labels df) - 5) (labels df)))
    by (apply firstn_NoDup, Hnd).
  assert (Htext_n : Forall (fun l => is_text l = true) (labels nutr)).
  { rewrite Elab. apply Forall_forall. intros l Hl. apply filter_In in Hl.
    destruct Hl as [Hl _]. apply firstn_incl in Hl.
    rewrite Forall_forall in Htext. apply Htext, Hl. }
  assert (Hnd_n : NoDup (labels nutr)) by (rewrite Elab; apply filter_NoDup, Hnd_first).
  assert (Hloop' : index tf = index nutr /\ labels tf = map TF_label (labels nutr)).
  { unfold boxcox_transform, labels in Hloop.
    apply boxcox_columns_ok in Hloop;
      [ | exact Hnd_n | apply incl_refl | apply TF_labels_NoDup; assumption
        | intros ? ? [] ].
    destruct Hloop as (Hidx & outs & Hcols & Hall).
    cbn [columns app index] in Hcols, Hidx. subst outs. split; [exact Hidx |].
    unfold labels. clear - Hall.
    induction Hall as [| lc out cs outs H _ IH]; simpl; [reflexivity |].
    destruct H as (E & _). rewrite E, IH. reflexivity. }
  destruct Hloop' as [Hidx Htf].
  split; [exact Elab |]. split; [| split; [exact Htf | split; [exact Hidx |]]].
  - rewrite Elab.
    assert (Hlen5 : length (firstn (length (labels df) - 5) (labels df)) + 5
                    = length (labels df)).
    { rewrite length_firstn. pose proof (picked_needs_54 _ _ Hpick) as H54.
      unfold labels. rewrite length_map. lia. }
    assert (Hcount :
              length (filter (fun x => negb (existsb (label_eqb x)
                                       ([FoodGroup; Shrt_Desc; NDB_No] ++ correlated)))
                             (firstn (length (labels df) - 5) (labels df)))
              + length ([FoodGroup; Shrt_Desc; NDB_No] ++ correlated)
              = length (firstn (length (labels df) - 5) (labels df)));
      [apply (filter_out_names _ _ Hnd_first)
      | change (length ([FoodGroup; Shrt_Desc; NDB_No] ++ correlated)) with 6 in Hcount;
        lia].
    + apply (NoDup_map_inv format_label). simpl.
      repeat (constructor; [simpl; intuition discriminate |]). constructor.
    + rewrite <- Efirst. intros l Hl. simpl in Hl.
      destruct Hl as [E | [E | [E | Hl]]]; try subst l.
      * apply Hfs. simpl. auto.
      * apply Hfs. simpl. auto.
      * apply in_map_iff. exists (NDB_No, ndb2). split; [reflexivity |].
        apply (remove_cols_incl [FoodGroup; Shrt_Desc]). exact Hndb2.
      * specialize (Hcorr_in l Hl). unfold labels in Hcorr_in. cbn [columns] in Hcorr_in.
        apply remove_cols_labels in Hcorr_in. destruct Hcorr_in as [Hc _].
        apply remove_cols_labels in Hc. apply Hc.
  - rewrite Hai. cbn [index]. symmetry. exact Eab.
Qed.

End Transformed.

(** In the run on the demonstration disk (54 columns) 43 columns are
    transformed. *)
Lemma X5_transformed_columns_witness :
  exists ns tf,
    snd (@notebook Demo.lib Demo.disk) = Ok ns
    /\ length (labels (nutr_df ns)) + 11 = length (labels (df ns))
    /\ labels tf = map TF_label (labels (nutr_df ns))
    /\ index (nutr_df ns) = index (desc_df ns).
Proof.
  destruct (@notebook Demo.lib Demo.disk) as [tr [ns | e]] eqn:E;
    [| vm_compute in E; discriminate].
  destruct (notebook_ok _ _ _ E)
    as (d0 & nutr0 & nutr1 & tf & t1 & t2 & t3 & t4 & t5 & t6 & t7 & t8 & t9
        & Hread & Hdf & H1 & H2 & H3 & Hadd & H4 & H5 & H6 & H7 & H8 & H9 & Htr).
  exists ns, tf. split; [reflexivity |].
  assert (Ed : Ok d0 = Ok Demo.table) by (rewrite <- Hread; reflexivity).
  injection Ed as Ed. subst d0.
  assert (Hnd : NoDup (labels (df ns))).
  { rewrite Hdf, dropna_labels. apply (NoDup_map_inv format_label). vm_compute.
    repeat (constructor; [simpl; intuition discriminate |]). constructor. }
  assert (Htext : Forall (fun l => is_text l = true) (labels (df ns))).
  { rewrite Hdf, dropna_labels. apply Forall_forall. intros l Hl.
    assert (Hb : forallb is_text (labels Demo.table) = true) by (vm_compute; reflexivity).
    rewrite forallb_forall in Hb. apply Hb, Hl. }
  destruct (@X5_transformed_columns Demo.lib _ _ _ _ _ _ _ _ _ Hnd Htext H2 H3 H5)
    as (_ & Hlen & Htf & _ & Hidx).
  auto.
Defined.

(** ** Further properties: sorting and counting *)

Lemma Qle_bool_total p q : Qle_bool p q = false -> Qle_bool q p = true.
Proof.
  intros H. apply Qle_bool_iff. destruct (Qlt_le_dec q p) as [Hlt | Hle].
  - apply Qlt_le_weak, Hlt.
  - apply Qle_bool_iff in Hle. congruence.
Qed.

Lemma value_leb_total a b : value_leb a b = false -> value_leb b a = true.
Proof.
  destruct a as [x | p | [|] | | s], b as [y | q | [|] | | t]; simpl;
    try reflexivity; try discriminate; try apply Qle_bool_total.
  - intros H. apply Z.leb_le. apply Z.leb_gt in H. lia.
  - intros H. destruct (String.leb_total s t) as [Hst | Hts]; congruence.
Qed.

Lemma insert_by_perm leb i l : Permutation (insert_by leb i l) (i :: l).
Proof.
  induction l as [| j rest IH]; simpl; [reflexivity |].
  destruct (leb i j); [reflexivity |].
  rewrite IH. apply perm_swap.
Qed.

Lemma insert_by_sorted (leb : nat -> nat -> bool) i l :
  (forall a b, leb a b = false -> leb b a = true) ->
  Sorted (fun a b => leb a b = true) l ->
  Sorted (fun a b => leb a b = true) (insert_by leb i l).
Proof.
  intros Htot. induction 1 as [| j rest Hs IH Hhd]; simpl.
  - repeat constructor.
  - destruct (leb i j) eqn:E.
    + constructor; [constructor; assumption | constructor; exact E].
    + constructor; [exact IH |].
      destruct rest as [| k rest']; simpl.
      * constructor. apply Htot, E.
      * destruct (leb i k); constructor.
        -- apply Htot, E.
        -- inversion Hhd; assumption.
Qed.

(** [argsort] rearranges the positions, into ascending order of the key. *)
Lemma argsort_perm key : Permutation (argsort key) (seq 0 (length key)).
Proof.
  unfold argsort. induction (seq 0 (length key)) as [| i rest IH]; simpl; [reflexivity |].
  rewrite insert_by_perm. constructor. exact IH.
Qed.

Lemma argsort_sorted key :
  Sorted (fun i j => value_leb (nth i key NaN) (nth j key NaN) = true) (argsort key).
Proof.
  unfold argsort. induction (seq 0 (length key)) as [| i rest IH]; simpl; [constructor |].
  apply (insert_by_sorted (fun i j => value_leb (nth i key NaN) (nth j key NaN))).
  - intros a b. apply value_leb_total.
  - exact IH.
Qed.

Lemma Sorted_map {A B : Type} (R : B -> B -> Prop) (f : A -> B) (l : list A) :
  Sorted (fun a b => R (f a) (f b)) l -> Sorted R (map f l).
Proof.
  induction 1 as [| a rest Hs IH Hhd]; simpl; [constructor |].
  constructor; [exact IH |]. destruct Hhd; simpl; constructor. assumption.
Qed.

Lemma sorted_nan_tail l :
  Sorted (fun a b => value_leb a b = true) l ->
  match l with
  | a :: _ => isnan a = true -> Forall (fun v => isnan v = true) l
  | [] => True
  end.
Proof.
  induction 1 as [| a rest Hs IH Hhd]; [exact I |].
  intros Ha. constructor; [exact Ha |].
  destruct rest as [| b rest']; [constructor |].
  apply IH. inversion Hhd as [| ? ? Hab]; subst.
  destruct a; try discriminate. destruct b; simpl in Hab; try discriminate. reflexivity.
Qed.

(** In a sorted column nothing but missing values follows a missing value. *)
Lemma sorted_nan_last l i j :
  Sorted (fun a b => value_leb a b = true) l ->
  i < j -> j < length l ->
  isnan (nth i l NaN) = true -> isnan (nth j l NaN) = true.
Proof.
  intros Hs. revert i j. induction Hs as [| a rest Hs IH Hhd]; intros i j Hij Hj Hnan.
  - simpl in Hj. lia.
  - destruct i as [| i'].
    + pose proof (sorted_nan_tail (a :: rest) (Sorted_cons Hs Hhd) Hnan) as Hall.
      rewrite Forall_forall in Hall. apply Hall. apply nth_In. exact Hj.
    + destruct j as [| j']; [lia |]. simpl in *. apply (IH i' j'); [lia | lia | exact Hnan].
Qed.

(** X6. [sort_values(by=...)] rearranges the rows of a table (every column
    having one cell per row) without changing any: the rows of the result are
    a permutation of the rows of the table, under the same column labels, and
    the column sorted by is in ascending order with the missing values last.
    A label that is not a column raises KeyError. *)
Theorem X6_sort_values_rearranges (d : DataFrame) (by_ : label) :
  rectangular d ->
  (forall s, sort_values d by_ = Ok s ->
     Permutation (rows s) (rows d)
     /\ labels s = labels d
     /\ exists key, loc s by_ = Some key
                    /\ Sorted (fun a b => value_leb a b = true) key
                    /\ forall i j, i < j -> j < length key ->
                                   isnan (nth i key NaN) = true ->
                                   isnan (nth j key NaN) = true)
  /\ (~ In by_ (labels d) -> sort_values d by_ = Error (KeyError by_)).
Proof.
  intros Hrect. split.
  - unfold sort_values. intros s.
    destruct (loc d by_) as [key |] eqn:Ek; [| discriminate].
    intros H. injection H as H. subst s.
    assert (Hlen : length key = nrows d).
    { apply loc_some in Ek. unfold rectangular in Hrect. rewrite Forall_forall in Hrect.
      apply (Hrect _ Ek). }
    assert (Hsorted : Sorted (fun a b => value_leb a b = true) (take (argsort key) key)).
    { unfold take. apply Sorted_map. apply argsort_sorted. }
    split; [| split; [apply take_rows_labels |]].
    + rewrite rows_take_rows. unfold rows. apply Permutation_map.
      rewrite <- Hlen. apply argsort_perm.
    + exists (take (argsort key) key). rewrite loc_take_rows, Ek.
      split; [reflexivity |]. split; [exact Hsorted |].
      intros i j. apply sorted_nan_last. exact Hsorted.
  - intros Hn. unfold sort_values.
    destruct (loc d by_) as [key |] eqn:Ek; [| reflexivity].
    apply loc_some in Ek. exfalso. apply Hn. unfold labels.
    apply in_map_iff. exists (by_, key). auto.
Qed.

(** A table of four rows sorted by [c1]: the missing value comes last. *)
Lemma X6_sort_values_rearranges_witness :
  exists s,
    sort_values (mkFrame [Num 0; Num 1; Num 2; Num 3]
                         [(LStr "c1", [Num 3; NaN; Num 2; Num 1]);
                          (FoodGroup, [Str "a"; Str "b"; Str "a"; Str "c"])])
                (LStr "c1") = Ok s
    /\ Permutation (rows s)
                   (rows (mkFrame [Num 0; Num 1; Num 2; Num 3]
                                  [(LStr "c1", [Num 3; NaN; Num 2; Num 1]);
                                   (FoodGroup, [Str "a"; Str "b"; Str "a"; Str "c"])]))
    /\ index s = [Num 3; Num 2; Num 0; Num 1].
Proof.
  set (d := mkFrame [Num 0; Num 1; Num 2; Num 3]
                    [(LStr "c1", [Num 3; NaN; Num 2; Num 1]);
                     (FoodGroup, [Str "a"; Str "b"; Str "a"; Str "c"])]).
  assert (Hrect : rectangular d) by (repeat constructor).
  destruct (sort_values d (LStr "c1")) as [s | e] eqn:E; [| vm_compute in E; discriminate].
  exists s. split; [reflexivity |].
  destruct (X6_sort_values_rearranges d (LStr "c1") Hrect) as [H _].
  destruct (H s E) as (Hperm & _). split; [exact Hperm |].
  vm_compute in E. injection E as E. subst s. reflexivity.
Defined.

Lemma bump_sum v acc : list_sum (map snd (bump v acc)) = S (list_sum (map snd acc)).
Proof.
  induction acc as [| wn rest IH]; simpl; [reflexivity |].
  destruct (value_eqb v (fst wn)); simpl; [reflexivity | rewrite IH; lia].
Qed.

Lemma bump_keys v acc :
  isnan v = false ->
  Forall (fun e => isnan (fst e) = false /\ 1 <= snd e) acc ->
  Forall (fun e => isnan (fst e) = false /\ 1 <= snd e) (bump v acc).
Proof.
  intros Hv. induction 1 as [| wn rest [Hw Hn] Hrest IH]; simpl.
  - repeat constructor. exact Hv.
  - destruct (value_eqb v (fst wn)); constructor; simpl; auto; try (split; [exact Hw | lia]).
Qed.

Lemma tally_from_sum l acc :
  list_sum (map snd (fold_left (fun acc v => if isnan v then acc else bump v acc) l acc))
  = list_sum (map snd acc) + length (filter (fun v => negb (isnan v)) l).
Proof.
  revert acc. induction l as [| v rest IH]; intros acc; simpl; [lia |].
  rewrite IH. destruct (isnan v); simpl; [reflexivity | rewrite bump_sum; lia].
Qed.

Lemma tally_from_keys l acc :
  Forall (fun e => isnan (fst e) = false /\ 1 <= snd e) acc ->
  Forall (fun e => isnan (fst e) = false /\ 1 <= snd e)
         (fold_left (fun acc v => if isnan v then acc else bump v acc) l acc).
Proof.
  revert acc. induction l as [| v rest IH]; intros acc Hacc; simpl; [exact Hacc |].
  apply IH. destruct (isnan v) eqn:E; [exact Hacc | apply bump_keys; assumption].
Qed.

Lemma insert_count_perm e l : Permutation (insert_count e l) (e :: l).
Proof.
  induction l as [| f rest IH]; simpl; [reflexivity |].
  destruct (snd f <? snd e); [reflexivity |].
  rewrite IH. apply perm_swap.
Qed.

Lemma insert_count_sorted e l :
  Sorted (fun a b => snd b <= snd a) l ->
  Sorted (fun a b => snd b <= snd a) (insert_count e l).
Proof.
  induction 1 as [| f rest Hs IH Hhd]; simpl.
  - repeat constructor.
  - destruct (snd f <? snd e) eqn:E.
    + apply Nat.ltb_lt in E. constructor; [constructor; assumption |].
      constructor. lia.
    + apply Nat.ltb_ge in E. constructor; [exact IH |].
      destruct rest as [| g rest']; simpl.
      * constructor. exact E.
      * destruct (snd g <? snd e); constructor; [exact E |].
        inversion Hhd; assumption.
Qed.

Lemma sort_counts_perm t acc :
  Permutation (fold_left (fun acc e => insert_count e acc) t acc) (t ++ acc).
Proof.
  revert acc. induction t as [| e rest IH]; intros acc; simpl; [reflexivity |].
  rewrite IH, insert_count_perm. symmetry. apply Permutation_middle.
Qed.

Lemma sort_counts_sorted t acc :
  Sorted (fun a b => snd b <= snd a) acc ->
  Sorted (fun a b => snd b <= snd a) (fold_left (fun acc e => insert_count e acc) t acc).
Proof.
  revert acc. induction t as [| e rest IH]; intros acc Hacc; simpl; [exact Hacc |].
  apply IH, insert_count_sorted, Hacc.
Qed.

Lemma list_sum_perm l l' : Permutation l l' -> list_sum l = list_sum l'.
Proof.
  induction 1; simpl; lia.
Qed.

(** What [value_counts] returns: the counts add up to the number of values
    that are not missing, no missing value is counted, every count is at
    least 1, and the most frequent value comes first. *)
Lemma value_counts_ok l :
  list_sum (map snd (value_counts l)) = length (filter (fun v => negb (isnan v)) l)
  /\ Forall (fun e => isnan (fst e) = false /\ 1 <= snd e) (value_counts l)
  /\ Sorted (fun a b => snd b <= snd a) (value_counts l).
Proof.
  unfold value_counts.
  pose proof (sort_counts_perm (tally l) []) as Hp. rewrite app_nil_r in Hp.
  split; [| split].
  - rewrite (list_sum_perm _ _ (Permutation_map snd Hp)).
    unfold tally. rewrite tally_from_sum. reflexivity.
  - eapply Permutation_Forall; [symmetry; exact Hp |].
    unfold tally. apply tally_from_keys. constructor.
  - apply sort_counts_sorted. constructor.
Qed.

Section Counting.

Context {L : Library}.

(** X7. [pca_df.sort_values(by=...)['FoodGroup'][:500].value_counts()]: when
    the cell returns, what it shows is the count of the food groups among the
    first 500 rows of the table sorted in ascending order of the component
    (the whole table when it has fewer rows): the counts add up to the number
    of these rows that have a food group, so to 500 at most; no missing group
    is counted and every listed group occurs at least once; the most frequent
    group comes first. *)
Theorem X7_top_food_groups_counts (d : DataFrame) (by_ : label) (counts : list (value * nat)) :
  snd (top_food_groups d by_) = Ok counts ->
  exists sorted groups,
    sort_values d by_ = Ok sorted
    /\ getitem sorted FoodGroup = Ok groups
    /\ counts = value_counts (firstn 500 groups)
    /\ list_sum (map snd counts)
       = length (filter (fun v => negb (isnan v)) (firstn 500 groups))
    /\ list_sum (map snd counts) <= 500
    /\ Forall (fun e => isnan (fst e) = false /\ 1 <= snd e) counts
    /\ Sorted (fun a b => snd b <= snd a) counts.
Proof.
  intros H. apply snd_ok in H. unfold top_food_groups, show in H. run_inv. subst.
  destruct (value_counts_ok (firstn 500 x2)) as (Hsum & Hkeys & Hsorted).
  do 2 eexists. repeat split; try eassumption.
  rewrite Hsum.
  etransitivity; [apply filter_length_le |]. apply firstn_le_length.
Qed.

End Counting.

(** Four rows, one without a food group: three are counted, the group that
    occurs twice first. *)
Lemma X7_top_food_groups_counts_witness :
  exists counts,
    snd (@top_food_groups Demo.lib
           (mkFrame [Num 0; Num 1; Num 2; Num 3]
                    [(LStr "c1", [Num 3; Num 0; Num 2; Num 1]);
                     (FoodGroup, [Str "Spices"; NaN; Str "Dairy"; Str "Dairy"])])
           (LStr "c1")) = Ok counts
    /\ list_sum (map snd counts) <= 500
    /\ counts = [(Str "Dairy", 2); (Str "Spices", 1)].
Proof.
  set (d := mkFrame [Num 0; Num 1; Num 2; Num 3]
                    [(LStr "c1", [Num 3; Num 0; Num 2; Num 1]);
                     (FoodGroup, [Str "Spices"; NaN; Str "Dairy"; Str "Dairy"])]).
  destruct (snd (@top_food_groups Demo.lib d (LStr "c1"))) as [counts | e] eqn:E;
    [| vm_compute in E; discriminate].
  exists counts. split; [reflexivity |].
  destruct (@X7_top_food_groups_counts Demo.lib d (LStr "c1") counts E)
    as (sorted & groups & _ & _ & _ & _ & Hle & _).
  split; [exact Hle |].
  vm_compute in E. injection E as E. subst counts. reflexivity.
Defined.

(** ** Further properties: the loop, the table of results, the components *)

Section LoopReturns.

Context {L : Library}.

Lemma boxcox_columns_each d cols tf0 t tf :
  boxcox_columns d cols tf0 = (t, Ok tf) ->
  forall l, In l cols -> exists x y, getitem d l = Ok x /\ boxcox x = Ok y.
Proof.
  revert tf0 t. induction cols as [| col rest IH]; intros tf0 t H l Hl; simpl in *.
  - destruct Hl.
  - run_inv. subst. destruct Hl as [E | Hl].
    + subst l. eauto.
    + eapply IH; eassumption.
Qed.

(** X8. The loop over the columns returns only if [boxcox] accepted every
    column: when [boxcox_transform] returns a table, no cell of the table it
    was given is a number that is zero or negative (the labels being
    distinct).  So without the cell that adds 1, a single zero in the data
    would stop the notebook here. *)
Theorem X8_loop_returns_only_on_positive_data (d : DataFrame) (t : list event) (tf : DataFrame) :
  NoDup (labels d) ->
  boxcox_transform d = (t, Ok tf) ->
  forall v, In v (cells d) -> nonpositive v = false.
Proof.
  intros Hnd H v Hv. unfold cells in Hv. apply in_flat_map in Hv.
  destruct Hv as ([l x] & Hlc & Hv). simpl in Hv.
  unfold boxcox_transform in H.
  destruct (boxcox_columns_each _ _ _ _ _ H l) as (x' & y & Hget & Hbox).
  { unfold labels. apply in_map_iff. exists (l, x). auto. }
  unfold getitem in Hget. rewrite (loc_unique d l x Hnd Hlc) in Hget.
  injection Hget as Hget. subst x'.
  unfold boxcox in Hbox. destruct x as [| x0 rest]; [discriminate |].
  destruct (forallb (fun v => cell_eqb v x0) (x0 :: rest)); [discriminate |].
  destruct (existsb is_str (x0 :: rest)); [discriminate |].
  destruct (existsb nonpositive (x0 :: rest)) eqn:E; [discriminate |].
  destruct (nonpositive v) eqn:Ev; [| reflexivity].
  assert (Hex : existsb nonpositive (x0 :: rest) = true)
    by (apply existsb_exists; exists v; auto).
  congruence.
Qed.

End LoopReturns.

(** With a zero in a column the loop stops; with 1 added it returns. *)
Lemma X8_loop_returns_only_on_positive_data_witness :
  (forall t tf,
      @boxcox_transform Demo.lib
        (mkFrame [Num 1001; Num 1003] [(LStr "Nutr_7", [Num 0; Num (5 # 2)])])
      <> (t, Ok tf))
  /\ exists t tf,
       @boxcox_transform Demo.lib
         (mkFrame [Num 1001; Num 1003] [(LStr "Nutr_7", [Num 1; Num (7 # 2)])])
       = (t, Ok tf).
Proof.
  split.
  - intros t tf H.
    assert (Hnd : NoDup (labels (mkFrame [Num 1001; Num 1003]
                                         [(LStr "Nutr_7", [Num 0; Num (5 # 2)])])))
      by (repeat constructor; simpl; tauto).
    pose proof (@X8_loop_returns_only_on_positive_data Demo.lib _ t tf Hnd H (Num 0)) as Hv.
    simpl in Hv. discriminate Hv. auto.
  - destruct (@boxcox_transform Demo.lib
                (mkFrame [Num 1001; Num 1003] [(LStr "Nutr_7", [Num 1; Num (7 # 2)])]))
      as [t [tf | e]] eqn:E; [eauto | vm_compute in E; discriminate].
Defined.

Lemma map_fst_combine {A B : Type} (a : list A) (b : list B) :
  length a = length b -> map fst (combine a b) = a.
Proof.
  revert b. induction a as [| x a IH]; intros [| y b] H; simpl in *; try discriminate.
  - reflexivity.
  - f_equal. apply IH. lia.
Qed.

Lemma map_snd_combine {A B : Type} (a : list A) (b : list B) :
  length a = length b -> map snd (combine a b) = b.
Proof.
  revert b. induction a as [| x a IH]; intros [| y b] H; simpl in *; try discriminate.
  - reflexivity.
  - f_equal. apply IH. lia.
Qed.

Lemma series_of_ok {K : Type} (x : list value) (idx : list K) s :
  series_of x idx = Ok s ->
  length x = length idx /\ map fst s = idx /\ map snd s = x.
Proof.
  unfold series_of. destruct (length x =? length idx) eqn:E; [| discriminate].
  apply Nat.eqb_eq in E. intros H. injection H as H. subst s.
  split; [exact E |]. split; [apply map_fst_combine | apply map_snd_combine]; lia.
Qed.

Section Components.

Context {L : Library}.

(** X9. Interpreting the results needs two components.  When [interpret]
    returns, [vects] are the first five rows of [fit.components_], the fit has
    at least two components, and the series [c1] and [c2] pair the column
    labels of [nutr_df], in order, with the loadings of the first and of the
    second component, each component having exactly one loading for each
    column.  A fit without any component stops the stage at [vects[0]] with
    IndexError, before anything is counted. *)
Theorem X9_interpret_components
        (fit : PCA) (nutr_df pca_df df : DataFrame) :
  (forall t vects c1 c2,
      interpret fit nutr_df pca_df df = (t, Ok (vects, c1, c2)) ->
      vects = firstn 5 (components_ fit)
      /\ 2 <= length (components_ fit)
      /\ map fst c1 = labels nutr_df /\ Some (map snd c1) = nth_error (components_ fit) 0
      /\ map fst c2 = labels nutr_df /\ Some (map snd c2) = nth_error (components_ fit) 1
      /\ length c1 = length (columns nutr_df) /\ length c2 = length (columns nutr_df))
  /\ (components_ fit = [] ->
      interpret fit nutr_df pca_df df
      = ([Ev (components_call fit 0) (Some (Exn "IndexError" "index out of bounds"))],
         Error (Exn "IndexError" "index out of bounds"))).
Proof.
  split.
  - intros t vects c1 c2 H.
    unfold interpret, component_series, show in H. run_inv. subst.
    repeat match goal with
           | H : row_at _ _ = Ok _ |- _ =>
               unfold row_at in H;
               let E := fresh "Erow" in
               destruct (nth_error _ _) eqn:E in H; [| discriminate];
               injection H as H; subst
           | H : series_of _ _ = Ok _ |- _ =>
               apply series_of_ok in H; destruct H as (? & ? & ?)
           end.
    assert (Hnth : forall i (r : list value),
               nth_error (firstn 5 (components_ fit)) i = Some r ->
               nth_error (components_ fit) i = Some r /\ i < length (components_ fit)).
    { intros i r Hr.
      assert (Hi : i < length (firstn 5 (components_ fit)))
        by (apply nth_error_Some; congruence).
      rewrite length_firstn in Hi.
      rewrite nth_error_firstn in Hr. destruct (i <? 5) eqn:E5; [| discriminate].
      split; [exact Hr | lia]. }
    repeat match goal with
           | H : nth_error (firstn 5 _) _ = Some _ |- _ =>
               apply Hnth in H; destruct H as (? & ?)
           end.
    split; [reflexivity |]. split; [lia |].
    repeat split; try congruence.
    + rewrite <- (length_map fst c1). unfold labels in *.
      match goal with H : map fst c1 = _ |- _ => rewrite H end. apply length_map.
    + rewrite <- (length_map fst c2). unfold labels in *.
      match goal with H : map fst c2 = _ |- _ => rewrite H end. apply length_map.
  - intros E. unfold interpret, component_series. rewrite E. reflexivity.
Qed.

End Components.

(** In the run on the demonstration disk the two series label the 43
    transformed columns. *)
Lemma X9_interpret_components_witness :
  exists ns,
    snd (@notebook Demo.lib Demo.disk) = Ok ns
    /\ map fst (c1 ns) = labels (nutr_df ns)
    /\ map fst (c2 ns) = labels (nutr_df ns)
    /\ 2 <= length (components_ (fit ns)).
Proof.
  destruct (@notebook Demo.lib Demo.disk) as [tr [ns | e]] eqn:E;
    [| vm_compute in E; discriminate].
  destruct (notebook_ok _ _ _ E)
    as (d0 & nutr0 & nutr1 & tf & t1 & t2 & t3 & t4 & t5 & t6 & t7 & t8 & t9
        & Hread & Hdf & H1 & H2 & H3 & Hadd & H4 & H5 & H6 & H7 & H8 & H9 & Htr).
  exists ns. split; [reflexivity |].
  destruct (@X9_interpret_components Demo.lib (fit ns) (nutr_df ns) (pca_df ns) (df ns))
    as [H _].
  destruct (H _ _ _ _ H9) as (_ & Hlen & Hc1 & _ & Hc2 & _).
  auto.
Defined.

Lemma flat_map_grows {A B : Type} (f : A -> list B) (l : list A) :
  (forall a, 1 <= length (f a)) -> length l <= length (flat_map f l).
Proof.
  intros Hf. induction l as [| a rest IH]; simpl; [lia |].
  rewrite length_app. specialize (Hf a). lia.
Qed.

(** A left join keeps every left row. *)
Lemma join_plan_length li ri : length li <= length (join_plan li ri).
Proof.
  unfold join_plan.
  etransitivity; [| apply flat_map_grows].
  - rewrite length_seq. reflexivity.
  - intros i. destruct (matches ri (nth i li NaN)) as [| j js]; simpl; lia.
Qed.

Lemma rename_text l : is_text l = true -> rename_label component_names l = l.
Proof.
  destruct l; [reflexivity | discriminate].
Qed.

Lemma frame_of_array_ok a idx d :
  frame_of_array a idx = Ok d ->
  shape0 a = length idx
  /\ d = mkFrame idx (combine (map (fun j => LInt (Z.of_nat j)) (seq 0 (length (acols a))))
                              (acols a)).
Proof.
  unfold frame_of_array. destruct (shape0 a =? length idx) eqn:E; [| discriminate].
  apply Nat.eqb_eq in E. intros H. injection H as H. subst d. auto.
Qed.

Section Results.

Context {L : Library}.

(** X10. The table of results.  When [components_frame] returns (the labels
    of [desc_df] being texts, as from a CSV header): the score array has one
    row for each row of [df]; the columns of [pca_df] are [c1] ... [c5] (as
    many as the array has columns, five at most) followed by the columns of
    [desc_df] that are not dropped, in their order; and the join has kept
    every row of the scores, so [pca_df] has at least as many rows as
    [df]. *)
Theorem X10_results_table
        (pca : ndarray) (df desc_df : DataFrame) (t : list event) (pca_df : DataFrame) :
  Forall (fun l => is_text l = true) (labels desc_df) ->
  components_frame pca df desc_df = (t, Ok pca_df) ->
  shape0 pca = nrows df
  /\ labels pca_df
     = firstn (length (acols pca)) (map snd component_names)
       ++ filter (fun l => negb (existsb (label_eqb l) desc_dropped)) (labels desc_df)
  /\ nrows df <= nrows pca_df.
Proof.
  intros Htext H.
  destruct (components_frame_ok _ _ _ _ _ H) as (scores & joined & Hframe & Hjoin & Hr).
  apply frame_of_array_ok in Hframe. destruct Hframe as [Hshape Hscores].
  unfold first_columns in Hshape, Hscores. cbn [shape0 acols] in Hshape, Hscores.
  split; [exact Hshape |].
  unfold join in Hjoin. destruct (existsb _ (labels scores)); [discriminate |].
  injection Hjoin as Hjoin. subst joined pca_df. split.
  - unfold labels, rename. cbn [columns index].
    rewrite map_map. cbn [fst].
    rewrite <- (map_map fst (rename_label component_names)).
    rewrite remove_cols_labels_filter, map_app, !map_map. cbn [fst].
    rewrite filter_app, map_app. f_equal.
    + subst scores. cbn [columns].
      rewrite <- (map_map fst (fun l => l)), map_id.
      rewrite map_fst_combine by (rewrite length_map, length_seq; reflexivity).
      destruct (acols pca) as [| k1 [| k2 [| k3 [| k4 [| k5 rest]]]]];
        simpl; rewrite ?firstn_nil; reflexivity.
    + change (map (fun x : label * list value => fst x) (columns desc_df))
        with (labels desc_df).
      fold (labels desc_df).
      etransitivity; [apply map_ext_in with (g := fun l => l) | apply map_id].
      intros l Hl. cbn beta. apply filter_In in Hl. destruct Hl as [Hl _].
      apply rename_text.
      rewrite Forall_forall in Htext. apply Htext, Hl.
  - unfold nrows, rename. cbn [index]. rewrite take_length, length_map.
    subst scores. cbn [index]. apply join_plan_length.
Qed.

End Results.

(** In the run on the demonstration disk the table of results has the
    columns [c1] ... [c5] and [FoodGroup]. *)
Lemma X10_results_table_witness :
  exists ns,
    snd (@notebook Demo.lib Demo.disk) = Ok ns
    /\ shape0 (pca ns) = nrows (df ns)
    /\ labels (pca_df ns)
       = [LStr "c1"; LStr "c2"; LStr "c3"; LStr "c4"; LStr "c5"; FoodGroup].
Proof.
  destruct (@notebook Demo.lib Demo.disk) as [tr [ns | e]] eqn:E;
    [| vm_compute in E; discriminate].
  destruct (notebook_ok _ _ _ E)
    as (d0 & nutr0 & nutr1 & tf & t1 & t2 & t3 & t4 & t5 & t6 & t7 & t8 & t9
        & Hread & Hdf & H1 & H2 & H3 & Hadd & H4 & H5 & H6 & H7 & H8 & H9 & Htr).
  exists ns. split; [reflexivity |].
  assert (Hfacts : forallb is_text (labels (desc_df ns)) = true
                   /\ length (acols (pca ns)) = 43
                   /\ labels (desc_df ns)
                      = [FoodGroup; Shrt_Desc; LStr "GmWt_Desc1"; LStr "GmWt_2";
                         LStr "GmWt_Desc2"; LStr "Refuse_Pct"]).
  { assert (Hc : match snd (@notebook Demo.lib Demo.disk) with
                 | Ok n => forallb is_text (labels (desc_df n)) = true
                           /\ length (acols (pca n)) = 43
                           /\ labels (desc_df n)
                              = [FoodGroup; Shrt_Desc; LStr "GmWt_Desc1"; LStr "GmWt_2";
                                 LStr "GmWt_Desc2"; LStr "Refuse_Pct"]
                 | Error _ => True
                 end) by (vm_compute; auto).
    rewrite E in Hc. exact Hc. }
  destruct Hfacts as (Htext & Hk & Hl).
  assert (Htext' : Forall (fun l => is_text l = true) (labels (desc_df ns))).
  { apply Forall_forall. rewrite forallb_forall in Htext. exact Htext. }
  destruct (@X10_results_table Demo.lib _ _ _ _ _ Htext' H8) as (Hshape & Hlab & _).
  split; [exact Hshape |]. rewrite Hlab, Hk, Hl. reflexivity.
Defined.

(** ** Further properties: what the join pairs *)

Lemma matches_spec ri v k :
  In k (matches ri v) <-> k < length ri /\ value_eqb v (nth k ri NaN) = true.
Proof.
  unfold matches. rewrite filter_In, in_seq. intuition lia.
Qed.

Lemma join_plan_spec li ri i o :
  In (i, o) (join_plan li ri) <->
  i < length li
  /\ match o with
     | Some k => k < length ri /\ value_eqb (nth i li NaN) (nth k ri NaN) = true
     | None => forall k, k < length ri -> value_eqb (nth i li NaN) (nth k ri NaN) = false
     end.
Proof.
  unfold join_plan. rewrite in_flat_map. split.
  - intros (i' & Hi' & Hin). apply in_seq in Hi'.
    destruct (matches ri (nth i' li NaN)) as [| k0 ks] eqn:Em.
    + destruct Hin as [E | []]. injection E as E1 E2. subst i' o.
      split; [lia |]. intros k Hk.
      destruct (value_eqb (nth i li NaN) (nth k ri NaN)) eqn:Ev; [| reflexivity].
      assert (Hm : In k (matches ri (nth i li NaN))) by (apply matches_spec; auto).
      rewrite Em in Hm. destruct Hm.
    + apply in_map_iff in Hin. destruct Hin as (k & E & Hk).
      injection E as E1 E2. subst i' o. split; [lia |].
      rewrite <- Em in Hk. apply matches_spec in Hk. exact Hk.
  - intros [Hi Ho]. exists i. split; [apply in_seq; lia |].
    destruct o as [k |].
    + assert (Hm : In k (matches ri (nth i li NaN))) by (apply matches_spec; exact Ho).
      destruct (matches ri (nth i li NaN)) as [| k0 ks]; [destruct Hm |].
      apply in_map_iff. exists k. auto.
    + destruct (matches ri (nth i li NaN)) as [| k0 ks] eqn:Em; [left; reflexivity |].
      exfalso. assert (Hm : In k0 (matches ri (nth i li NaN))) by (rewrite Em; left; reflexivity).
      apply matches_spec in Hm. destruct Hm as [Hk Hv]. rewrite (Ho k0 Hk) in Hv.
      discriminate.
Qed.

(** X11. [pca_df.join(desc_df)] pairs rows by their row labels and by nothing
    else.  When the join returns, every row of the result is a row of the left
    table, with its label and cells, next to either a row of the right table
    that carries an equal label, with that row's cells, or, when no right row
    carries it, missing values (and once a left row is without a partner, the
    integers of an [int64] column are kept as float64); and every pair of a
    left and a right row with equal labels is a row of the result.  (In the
    notebook the left labels are
    the row labels of [df] and the right labels the values of [NDB_No]: a
    score row is given the food group of the food whose identifier equals its
    row label.) *)
Theorem X11_join_pairs_equal_labels (l r j : DataFrame) :
  join l r = Ok j ->
  exists plan,
    nrows j = length plan
    /\ (forall p, p < length plan ->
          let i := fst (nth p plan (0, None)) in
          let o := snd (nth p plan (0, None)) in
          i < nrows l
          /\ nth p (index j) NaN = nth i (index l) NaN
          /\ (forall n c, In (n, c) (columns l) ->
                exists c', In (n, c') (columns j) /\ nth p c' NaN = nth i c NaN)
          /\ (forall n c, In (n, c) (columns r) ->
                exists c', In (n, c') (columns j)
                           /\ nth p c' NaN
                              = joined plan
                                  match o with Some k => nth k c NaN | None => NaN end)
          /\ match o with
             | Some k => k < nrows r
                         /\ value_eqb (nth i (index l) NaN) (nth k (index r) NaN) = true
             | None => forall k, k < nrows r ->
                         value_eqb (nth i (index l) NaN) (nth k (index r) NaN) = false
             end)
    /\ (forall i k, i < nrows l -> k < nrows r ->
          value_eqb (nth i (index l) NaN) (nth k (index r) NaN) = true ->
          In (i, Some k) plan).
Proof.
  unfold join. destruct (existsb _ (labels l)); [discriminate |].
  intros H. injection H as H. subst j.
  exists (join_plan (index l) (index r)).
  set (plan := join_plan (index l) (index r)).
  assert (Htake : forall p c, p < length plan ->
            nth p (take (map fst plan) c) NaN = nth (fst (nth p plan (0, None))) c NaN).
  { intros p c Hp. rewrite nth_take by (rewrite length_map; exact Hp).
    f_equal. apply (map_nth fst plan (0, None) p). }
  assert (Htake_opt : forall p c, p < length plan ->
            nth p (map (joined plan) (take_opt (map snd plan) c)) NaN
            = joined plan
                match snd (nth p plan (0, None)) with
                | Some k => nth k c NaN
                | None => NaN
                end).
  { intros p c Hp.
    rewrite (nth_indep _ NaN (joined plan NaN))
      by (unfold take_opt; rewrite !length_map; exact Hp).
    rewrite (map_nth (joined plan)). f_equal. unfold take_opt.
    rewrite (nth_indep _ NaN
               ((fun o => match o with Some k => nth k c NaN | None => NaN end)
                  (snd (0, @None nat))))
      by (rewrite !length_map; exact Hp).
    rewrite (map_nth (fun o => match o with Some k => nth k c NaN | None => NaN end)).
    rewrite (map_nth snd plan (0, None) p). reflexivity. }
  split; [| split].
  - unfold nrows. cbn [index]. rewrite take_length, length_map. reflexivity.
  - intros p Hp. cbn zeta.
    assert (Hin : In (nth p plan (0, None)) plan) by (apply nth_In; exact Hp).
    destruct (nth p plan (0, None)) as [i o] eqn:Ep. cbn [fst snd].
    apply join_plan_spec in Hin. destruct Hin as [Hi Ho].
    split; [exact Hi |]. cbn [index columns].
    split; [rewrite Htake by exact Hp; rewrite Ep; reflexivity |].
    split; [| split; [| exact Ho]].
    + intros n c Hc. exists (take (map fst plan) c). split.
      * apply in_or_app. left. apply in_map_iff. exists (n, c). auto.
      * rewrite Htake by exact Hp. rewrite Ep. reflexivity.
    + intros n c Hc. exists (map (joined plan) (take_opt (map snd plan) c)). split.
      * apply in_or_app. right. apply in_map_iff. exists (n, c). auto.
      * rewrite Htake_opt by exact Hp. rewrite Ep. reflexivity.
  - intros i k Hi Hk Hv. apply join_plan_spec. auto.
Qed.

(** Scores labelled 0 and 1001 joined with the descriptions of the foods 1001
    and 1003: the second score row is given the group of food 1001, the first
    none. *)
Lemma X11_join_pairs_equal_labels_witness :
  exists j,
    join (mkFrame [Num 0; Num 1001] [(LInt 0, [Num (1 # 2); Num (3 # 2)])])
         (mkFrame [Num 1001; Num 1003] [(FoodGroup, [Str "Dairy"; Str "Spices"])])
    = Ok j
    /\ nrows j = 2
    /\ loc j FoodGroup = Some [NaN; Str "Dairy"].
Proof.
  set (l := mkFrame [Num 0; Num 1001] [(LInt 0, [Num (1 # 2); Num (3 # 2)])]).
  set (r := mkFrame [Num 1001; Num 1003] [(FoodGroup, [Str "Dairy"; Str "Spices"])]).
  destruct (join l r) as [j | e] eqn:E; [| vm_compute in E; discriminate].
  exists j. split; [reflexivity |].
  destruct (X11_join_pairs_equal_labels l r j E) as (plan & Hn & _).
  vm_compute in E. injection E as E. subst j. split; reflexivity.
Defined.
